(** * Video avatars: the renderer instance and the renderer registry

    A shallow embedding of
    - [play/src/front/Phaser/Entity/VideoAvatarRenderer.ts] (class
      [VideoAvatarRenderer]) and
    - class [VideoAvatarManager] (the registry of renderer instances),
    followed by the properties of the avatar specification that were
    checked against them.

    Conventions of the embedding.
    - A JavaScript [number] is an exact rational ([Q]); rounding of
      IEEE doubles is not modelled, and a quotient is only meaningful
      when its divisor is not zero.  The integer valued DOM attributes
      ([videoWidth], [img.width], ...) are integers ([Z]).
    - The 2D context of the private canvas is modelled by the sequence of
      calls made on it, oldest first ([canvas]); the Phaser texture by the
      canvas content that the last refresh copied into it.
    - An object of class [VideoAvatarRenderer] is a record; a method is a
      function from the record before the call to the record after it.
      The registry keeps references: indices into a store of records.
    - What the hosting page decides (whether a 2D context or a texture can
      be allocated, whether the texture key still exists, which size the
      video sink reports) is an explicit argument or an explicit event. *)

From Stdlib Require Import QArith Lqa ZArith String List.
From stdpp Require Import gmap strings list fin_maps.

Local Open Scope string_scope.

(** The result of a call that may throw. *)
Inductive Result (A : Type) : Type :=
| Ok (a : A)
| Throw (message : string).
Arguments Ok {A} a.
Arguments Throw {A} message.

(** [x < y] on JavaScript numbers, as a boolean. *)
Definition Qlt_bool (x y : Q) : bool := negb (Qle_bool y x).

Module VideoAvatarRenderer.

Local Open Scope Q_scope.

(** ** Data *)

(** A media stream, inspected only through [getVideoTracks()]. *)
Record MediaStream := { getVideoTracks : list string }.

(** A decoded image: its URL and its integer size. *)
Record HTMLImageElement := { src : string; width : Z; height : Z }.

(** The hidden video element: the attached stream and the size the sink
    currently reports (both 0 until the first frame is known). *)
Record HTMLVideoElement := {
  srcObject : option MediaStream;
  videoWidth : Z;
  videoHeight : Z }.

(** The calls made on a [CanvasRenderingContext2D].  Angles are recorded
    in units of pi ([Math.PI * 2] is [2]). *)
Inductive DrawOp :=
| fillStyle (colour : string)
| fillRect (x y w h : Q)
| clearRect (x y w h : Q)
| beginPath
| arc (x y radius startAngle endAngle : Q)
| ellipse (x y radiusX radiusY rotation startAngle endAngle : Q)
| fill
| drawImage5 (img : HTMLImageElement) (dx dy dw dh : Q)
| drawImage9 (video : HTMLVideoElement) (sx sy sw sh dx dy dw dh : Q).

(** The Phaser canvas texture: what the last refresh copied from the
    canvas, and whether [canvasTexture.destroy()] has run. *)
Record CanvasTexture := {
  shown : list DrawOp;
  textureDestroyed : bool }.

Record t := {
  textureKey : string;
  canvas : list DrawOp;
  canvasTexture : CanvasTexture;
  videoElement : HTMLVideoElement;
  lastFrameTime : Q;
  isActive : bool;
  currentMaskImage : option HTMLImageElement;
  maskLoading : bool;
  destroyed : bool }.

Definition SPRITE_WIDTH : Q := 32.
Definition SPRITE_HEIGHT : Q := 32.

(** [frameInterval] is a private field initialised to 66 and never
    assigned again. *)
Definition frameInterval : Q := 66.

(** Field assignments. *)
Definition set_canvas (c : list DrawOp) (r : t) : t :=
  {| textureKey := textureKey r; canvas := c;
     canvasTexture := canvasTexture r; videoElement := videoElement r;
     lastFrameTime := lastFrameTime r; isActive := isActive r;
     currentMaskImage := currentMaskImage r; maskLoading := maskLoading r;
     destroyed := destroyed r |}.

Definition set_canvasTexture (x : CanvasTexture) (r : t) : t :=
  {| textureKey := textureKey r; canvas := canvas r;
     canvasTexture := x; videoElement := videoElement r;
     lastFrameTime := lastFrameTime r; isActive := isActive r;
     currentMaskImage := currentMaskImage r; maskLoading := maskLoading r;
     destroyed := destroyed r |}.

Definition set_videoElement (v : HTMLVideoElement) (r : t) : t :=
  {| textureKey := textureKey r; canvas := canvas r;
     canvasTexture := canvasTexture r; videoElement := v;
     lastFrameTime := lastFrameTime r; isActive := isActive r;
     currentMaskImage := currentMaskImage r; maskLoading := maskLoading r;
     destroyed := destroyed r |}.

Definition set_lastFrameTime (x : Q) (r : t) : t :=
  {| textureKey := textureKey r; canvas := canvas r;
     canvasTexture := canvasTexture r; videoElement := videoElement r;
     lastFrameTime := x; isActive := isActive r;
     currentMaskImage := currentMaskImage r; maskLoading := maskLoading r;
     destroyed := destroyed r |}.

Definition set_isActive (b : bool) (r : t) : t :=
  {| textureKey := textureKey r; canvas := canvas r;
     canvasTexture := canvasTexture r; videoElement := videoElement r;
     lastFrameTime := lastFrameTime r; isActive := b;
     currentMaskImage := currentMaskImage r; maskLoading := maskLoading r;
     destroyed := destroyed r |}.

Definition set_currentMaskImage (i : option HTMLImageElement) (r : t) : t :=
  {| textureKey := textureKey r; canvas := canvas r;
     canvasTexture := canvasTexture r; videoElement := videoElement r;
     lastFrameTime := lastFrameTime r; isActive := isActive r;
     currentMaskImage := i; maskLoading := maskLoading r;
     destroyed := destroyed r |}.

Definition set_maskLoading (b : bool) (r : t) : t :=
  {| textureKey := textureKey r; canvas := canvas r;
     canvasTexture := canvasTexture r; videoElement := videoElement r;
     lastFrameTime := lastFrameTime r; isActive := isActive r;
     currentMaskImage := currentMaskImage r; maskLoading := b;
     destroyed := destroyed r |}.

Definition set_destroyed (b : bool) (r : t) : t :=
  {| textureKey := textureKey r; canvas := canvas r;
     canvasTexture := canvasTexture r; videoElement := videoElement r;
     lastFrameTime := lastFrameTime r; isActive := isActive r;
     currentMaskImage := currentMaskImage r; maskLoading := maskLoading r;
     destroyed := b |}.

(** [this.videoElement.srcObject = s] *)
Definition set_srcObject (s : option MediaStream) (r : t) : t :=
  set_videoElement
    {| srcObject := s;
       videoWidth := videoWidth (videoElement r);
       videoHeight := videoHeight (videoElement r) |} r.

(** [this.ctx.<op>(...)] for each call of [ops], in order. *)
Definition draw (ops : list DrawOp) (r : t) : t :=
  set_canvas (canvas r ++ ops) r.

(** ** Drawing *)

(** [refreshTexture]: unless destroyed, clear the texture and copy the
    canvas into it. *)
Definition refreshTexture (r : t) : t :=
  if destroyed r then r
  else set_canvasTexture
         {| shown := canvas r;
            textureDestroyed := textureDestroyed (canvasTexture r) |} r.

Definition placeholderOps : list DrawOp :=
  [ fillStyle "#444444";
    fillRect 0 0 SPRITE_WIDTH SPRITE_HEIGHT;
    fillStyle "#666666";
    beginPath;
    arc (SPRITE_WIDTH / 2) (SPRITE_HEIGHT * (35 # 100))
        (SPRITE_HEIGHT * (2 # 10)) 0 2;
    fill;
    beginPath;
    ellipse (SPRITE_WIDTH / 2) (SPRITE_HEIGHT * (8 # 10))
            (SPRITE_WIDTH * (3 # 10)) (SPRITE_HEIGHT * (3 # 10)) 0 0 2;
    fill ].

Definition drawPlaceholder (r : t) : t :=
  refreshTexture (draw placeholderOps r).

(** A rectangle [x, y, w, h]. *)
Record Rect := { rx : Q; ry : Q; rw : Q; rh : Q }.

(** The source rectangle computed by [drawVideoFrame] (centre crop);
    [width] and [height] of the source are the two sprite constants.
    [update] calls [drawVideoFrame] only when both sizes of the video are
    non-zero; the quotient by a zero height, [Infinity] or [NaN] in the
    source, has no counterpart in [Q], and every property of this
    rectangle below is stated for positive sizes. *)
Definition videoSourceRect (video : HTMLVideoElement) : Rect :=
  let videoAspect := inject_Z (videoWidth video) / inject_Z (videoHeight video) in
  let targetAspect := SPRITE_WIDTH / SPRITE_HEIGHT in
  if Qlt_bool targetAspect videoAspect then
    let sw := inject_Z (videoHeight video) * targetAspect in
    {| rx := (inject_Z (videoWidth video) - sw) / 2; ry := 0;
       rw := sw; rh := inject_Z (videoHeight video) |}
  else
    let sh := inject_Z (videoWidth video) / targetAspect in
    {| rx := 0; ry := (inject_Z (videoHeight video) - sh) / 2;
       rw := inject_Z (videoWidth video); rh := sh |}.

Definition videoOps (video : HTMLVideoElement) : list DrawOp :=
  let s := videoSourceRect video in
  [ clearRect 0 0 SPRITE_WIDTH SPRITE_HEIGHT;
    drawImage9 video (rx s) (ry s) (rw s) (rh s)
               0 0 SPRITE_WIDTH SPRITE_HEIGHT ].

Definition drawVideoFrame (r : t) : t :=
  refreshTexture (draw (videoOps (videoElement r)) r).

(** The destination rectangle computed by [drawMaskToCanvas] (centre fit).
    It is the rectangle of the source for an image of positive width and
    height; for a zero height the quotient of the source is [Infinity] or
    [NaN], which [Q] does not have, and every property of this rectangle
    below is stated for positive sizes. *)
Definition maskDestRect (img : HTMLImageElement) : Rect :=
  let imgAspect := inject_Z (width img) / inject_Z (height img) in
  let targetAspect := SPRITE_WIDTH / SPRITE_HEIGHT in
  if Qlt_bool targetAspect imgAspect then
    let dh := SPRITE_WIDTH / imgAspect in
    {| rx := 0; ry := (SPRITE_HEIGHT - dh) / 2; rw := SPRITE_WIDTH; rh := dh |}
  else
    let dw := SPRITE_HEIGHT * imgAspect in
    {| rx := (SPRITE_WIDTH - dw) / 2; ry := 0; rw := dw; rh := SPRITE_HEIGHT |}.

Definition maskOps (img : HTMLImageElement) : list DrawOp :=
  let d := maskDestRect img in
  [ fillStyle "#333333";
    fillRect 0 0 SPRITE_WIDTH SPRITE_HEIGHT;
    drawImage5 img (rx d) (ry d) (rw d) (rh d) ].

Definition drawMaskToCanvas (r : t) : t :=
  match currentMaskImage r with
  | None => drawPlaceholder r
  | Some img => refreshTexture (draw (maskOps img) r)
  end.

(** ** Construction *)

(** What the page answers to the two allocations of the constructor:
    [canvas.getContext("2d")] and [scene.textures.createCanvas(...)]. *)
Record Allocation := { context2d : bool; canvasTextureCreated : bool }.

(** The fields as the constructor initialises them, before it draws. *)
Definition initial (key : string) : t :=
  {| textureKey := key;
     canvas := [];
     canvasTexture := {| shown := []; textureDestroyed := false |};
     videoElement :=
       {| srcObject := None; videoWidth := 0; videoHeight := 0 |};
     lastFrameTime := 0;
     isActive := false;
     currentMaskImage := None;
     maskLoading := false;
     destroyed := false |}.

Definition new (env : Allocation) (key : string) : Result t :=
  if negb (context2d env) then
    Throw "Failed to get 2d context for video avatar canvas"
  else if negb (canvasTextureCreated env) then
    Throw "Failed to create canvas texture for video avatar"
  else
    Ok (drawPlaceholder (initial key)).

(** ** Mutators *)

(** [stream && stream.getVideoTracks().length > 0] *)
Definition hasVideoTrack (stream : option MediaStream) : bool :=
  match stream with
  | Some s => (0 <? length (getVideoTracks s))%nat
  | None => false
  end.

(** [setStream]; [videoElement.play()] leaves no trace in the instance,
    its rejection is the page event [play_rejected] below. *)
Definition setStream (stream : option MediaStream) (r : t) : t :=
  if destroyed r then r
  else if hasVideoTrack stream then
    set_isActive true (set_srcObject stream r)
  else
    let r := set_isActive false (set_srcObject None r) in
    match currentMaskImage r with
    | Some _ => drawMaskToCanvas r
    | None => drawPlaceholder r
    end.

(** [!imageUrl]: [null] and the empty string are both falsy. *)
Definition noUrl (imageUrl : option string) : bool :=
  match imageUrl with
  | None => true
  | Some EmptyString => true
  | Some (String _ _) => false
  end.

(** [setMaskImage] returns the instance after the call and the URL whose
    load it started ([img.src = imageUrl]), if any.  The two handlers it
    installs on the new image are [img_onload] and [img_onerror]. *)
Definition setMaskImage (imageUrl : option string) (r : t) : t * option string :=
  if destroyed r then (r, None)
  else if noUrl imageUrl then
    let r := set_currentMaskImage None r in
    ((if negb (isActive r) then drawPlaceholder r else r), None)
  else
    (set_maskLoading true r, imageUrl).

(** [img.onload], for the image [img] that finished loading. *)
Definition img_onload (img : HTMLImageElement) (r : t) : t :=
  if destroyed r then r
  else
    let r := set_maskLoading false (set_currentMaskImage (Some img) r) in
    if negb (isActive r) then drawMaskToCanvas r else r.

(** [img.onerror]: the instance after the handler and the warning it
    writes to the console. *)
Definition img_onerror (imageUrl : string) (r : t) : t * string :=
  let r := set_maskLoading false r in
  ((if negb (isActive r) then drawPlaceholder r else r),
   "Failed to load mask image: " ++ imageUrl).

Definition update (time : Q) (r : t) : t :=
  if destroyed r then r
  else if negb (isActive r) then r
  else if Qlt_bool (time - lastFrameTime r) frameInterval then r
  else
    let r := set_lastFrameTime time r in
    if ((videoWidth (videoElement r) =? 0)%Z
        || (videoHeight (videoElement r) =? 0)%Z)%bool
    then r
    else drawVideoFrame r.

(** ** Accessors *)

Definition getTextureKey (r : t) : string := textureKey r.
Definition isVideoActive (r : t) : bool := isActive r.
Definition isMaskLoading (r : t) : bool := maskLoading r.

(** ** Teardown *)

(** [destroy]; [textureExists] is the answer of
    [scene.textures.exists(this.textureKey)].  [videoElement.remove()]
    acts on an element that was never inserted in the document. *)
Definition destroy (textureExists : bool) (r : t) : t :=
  if destroyed r then r
  else
    let r := set_destroyed true r in
    let r := set_srcObject None r in
    let r := set_isActive false r in
    let r := set_currentMaskImage None r in
    if textureExists then
      set_canvasTexture
        {| shown := shown (canvasTexture r); textureDestroyed := true |} r
    else r.

(** ** The instance inside its page

    The page adds what the instance does not store: the image loads that
    were started and have not reported yet, and the console. *)
Record Page := {
  instance : t;
  loading : list string;
  console : list string }.

Inductive Event :=
| call_setStream (stream : option MediaStream)
| call_setMaskImage (imageUrl : option string)
| call_update (time : Q)
| call_destroy (textureExists : bool)
| video_reports (w h : Z)
| play_rejected (reason : string)
| image_loaded (url : string) (w h : Z)
| image_failed (url : string).

(** The video sink reports a new size. *)
Definition videoReports (w h : Z) (r : t) : t :=
  set_videoElement
    {| srcObject := srcObject (videoElement r);
       videoWidth := w; videoHeight := h |} r.

(** Take the first occurrence of [url] out of the loads in flight. *)
Fixpoint completeLoad (url : string) (l : list string) : option (list string) :=
  match l with
  | [] => None
  | u :: l =>
      if String.eqb url u then Some l
      else option_map (cons u) (completeLoad url l)
  end.

Definition with_instance (r : t) (p : Page) : Page :=
  {| instance := r; loading := loading p; console := console p |}.

(** One event; [None] when the event cannot happen in this page (an image
    reports only if its load is in flight). *)
Definition fire (e : Event) (p : Page) : option Page :=
  match e with
  | call_setStream stream =>
      Some (with_instance (setStream stream (instance p)) p)
  | call_setMaskImage imageUrl =>
      let (r, started) := setMaskImage imageUrl (instance p) in
      Some {| instance := r;
              loading := loading p ++ option_list started;
              console := console p |}
  | call_update time =>
      Some (with_instance (update time (instance p)) p)
  | call_destroy textureExists =>
      Some (with_instance (destroy textureExists (instance p)) p)
  | video_reports w h =>
      Some (with_instance (videoReports w h (instance p)) p)
  | play_rejected reason =>
      Some {| instance := instance p;
              loading := loading p;
              console := console p ++ ["Failed to play video stream: " ++ reason] |}
  | image_loaded url w h =>
      match completeLoad url (loading p) with
      | Some rest =>
          Some {| instance :=
                    img_onload {| src := url; width := w; height := h |}
                               (instance p);
                  loading := rest;
                  console := console p |}
      | None => None
      end
  | image_failed url =>
      match completeLoad url (loading p) with
      | Some rest =>
          let (r, warning) := img_onerror url (instance p) in
          Some {| instance := r;
                  loading := rest;
                  console := console p ++ [warning] |}
      | None => None
      end
  end.

(** A sequence of events, oldest first. *)
Fixpoint fireAll (es : list Event) (p : Page) : option Page :=
  match es with
  | [] => Some p
  | e :: es =>
      match fire e p with
      | Some p' => fireAll es p'
      | None => None
      end
  end.

End VideoAvatarRenderer.

Module VideoAvatarManager.

(** ** Data

    [store] holds every renderer instance constructed so far; a reference
    to an instance is its index in the store, so that two references are
    the same object exactly when they are equal.  [renderers] is the
    [Map] from participant id to instance, [console] the warnings written
    so far.  A [Map] is visited in insertion order and a [gmap] in an
    order of its own; the visits modelled here ([update], [destroy],
    [getActiveVideoCount]) do not depend on the order, and
    [getAllTextureKeys], a debugging aid that does, is left out. *)
Record t := {
  store : list VideoAvatarRenderer.t;
  renderers : gmap string nat;
  localRenderer : option nat;
  destroyed : bool;
  console : list string }.

Definition MAX_CONCURRENT_VIDEO : nat := 8.

(** [new VideoAvatarManager(scene)] *)
Definition new : t :=
  {| store := []; renderers := ∅; localRenderer := None;
     destroyed := false; console := [] |}.

Definition set_store (s : list VideoAvatarRenderer.t) (m : t) : t :=
  {| store := s; renderers := renderers m; localRenderer := localRenderer m;
     destroyed := destroyed m; console := console m |}.

Definition warn (message : string) (m : t) : t :=
  {| store := store m; renderers := renderers m;
     localRenderer := localRenderer m; destroyed := destroyed m;
     console := console m ++ [message] |}.

(** A method call [f] on the instance behind reference [l]. *)
Definition onInstance (l : nat) (f : VideoAvatarRenderer.t → VideoAvatarRenderer.t)
    (m : t) : t :=
  set_store (alter f l (store m)) m.

(** [renderer.isVideoActive()] through a reference. *)
Definition videoActiveAt (m : t) (l : nat) : bool :=
  match store m !! l with
  | Some r => VideoAvatarRenderer.isVideoActive r
  | None => false
  end.

(** ** Methods *)

Definition createLocalRenderer (env : VideoAvatarRenderer.Allocation) (m : t)
    : Result nat * t :=
  match localRenderer m with
  | Some l => (Ok l, m)
  | None =>
      match VideoAvatarRenderer.new env "local_video_avatar" with
      | Throw e => (Throw e, m)
      | Ok r =>
          let l := length (store m) in
          (Ok l,
           {| store := store m ++ [r]; renderers := renderers m;
              localRenderer := Some l; destroyed := destroyed m;
              console := console m |})
      end
  end.

Definition getLocalRenderer (m : t) : option nat := localRenderer m.

Definition createRemoteRenderer (env : VideoAvatarRenderer.Allocation)
    (spaceUserId : string) (m : t) : Result nat * t :=
  match renderers m !! spaceUserId with
  | Some existing => (Ok existing, m)
  | None =>
      let m :=
        if (MAX_CONCURRENT_VIDEO <=? size (renderers m))%nat
        then warn "Maximum concurrent video avatars (8) reached" m
        else m in
      let textureKey := "remote_video_" ++ spaceUserId in
      match VideoAvatarRenderer.new env textureKey with
      | Throw e => (Throw e, m)
      | Ok r =>
          let l := length (store m) in
          (Ok l,
           {| store := store m ++ [r];
              renderers := <[spaceUserId := l]> (renderers m);
              localRenderer := localRenderer m; destroyed := destroyed m;
              console := console m |})
      end
  end.

Definition getRenderer (spaceUserId : string) (m : t) : option nat :=
  renderers m !! spaceUserId.

Definition getOrCreateRenderer (env : VideoAvatarRenderer.Allocation)
    (spaceUserId : string) (m : t) : Result nat * t :=
  match renderers m !! spaceUserId with
  | Some existing => (Ok existing, m)
  | None => createRemoteRenderer env spaceUserId m
  end.

Definition update (time : Q) (m : t) : t :=
  if destroyed m then m
  else
    let m :=
      match localRenderer m with
      | Some l => onInstance l (VideoAvatarRenderer.update time) m
      | None => m
      end in
    map_fold (λ _ l m, onInstance l (VideoAvatarRenderer.update time) m)
             m (renderers m).

(** [textureExists] answers [scene.textures.exists] for the instance that
    is destroyed. *)
Definition removeRenderer (textureExists : bool) (spaceUserId : string)
    (m : t) : t :=
  match renderers m !! spaceUserId with
  | Some l =>
      let m := onInstance l (VideoAvatarRenderer.destroy textureExists) m in
      {| store := store m; renderers := delete spaceUserId (renderers m);
         localRenderer := localRenderer m; destroyed := destroyed m;
         console := console m |}
  | None => m
  end.

Definition getActiveVideoCount (m : t) : nat :=
  let count :=
    match localRenderer m with
    | Some l => if videoActiveAt m l then 1 else 0
    | None => 0
    end in
  map_fold (λ _ l count, if videoActiveAt m l then S count else count)
           count (renderers m).

Definition canAddVideoStream (m : t) : bool :=
  (getActiveVideoCount m <? MAX_CONCURRENT_VIDEO)%nat.

(** [textureExists key] answers [scene.textures.exists(key)]. *)
Definition destroy (textureExists : string → bool) (m : t) : t :=
  if destroyed m then m
  else
    let kill r :=
      VideoAvatarRenderer.destroy
        (textureExists (VideoAvatarRenderer.textureKey r)) r in
    let m :=
      {| store := store m; renderers := renderers m;
         localRenderer := localRenderer m; destroyed := true;
         console := console m |} in
    let m :=
      match localRenderer m with
      | Some l => onInstance l kill m
      | None => m
      end in
    let m :=
      {| store := store m; renderers := renderers m;
         localRenderer := None; destroyed := destroyed m;
         console := console m |} in
    let m := map_fold (λ _ l m, onInstance l kill m) m (renderers m) in
    {| store := store m; renderers := ∅;
       localRenderer := localRenderer m; destroyed := destroyed m;
       console := console m |}.

End VideoAvatarManager.

(** * Observations on runs of one instance *)

Module R := VideoAvatarRenderer.
Module M := VideoAvatarManager.

(** The calls that draw a video frame, and how many the canvas has seen. *)
Definition isVideoDraw (op : R.DrawOp) : bool :=
  match op with
  | R.drawImage9 _ _ _ _ _ _ _ _ _ => true
  | _ => false
  end.

Definition videoDraws (r : R.t) : nat :=
  length (List.filter isVideoDraw (R.canvas r)).

(** One rendering frame: the size the video sink reports when the scene
    calls [update(tick)]. *)
Record Frame := { tick : Q; sinkWidth : Z; sinkHeight : Z }.

Definition runFrame (f : Frame) (r : R.t) : R.t :=
  R.update (tick f) (R.videoReports (sinkWidth f) (sinkHeight f) r).

(** Did this frame draw the video? *)
Definition redrawn (f : Frame) (r : R.t) : bool :=
  (videoDraws r <? videoDraws (runFrame f r))%nat.

(** Is the throttle of [update] open at [time]: the instance is live, in
    video mode, and at least [frameInterval] has elapsed? *)
Definition throttleOpen (time : Q) (r : R.t) : bool :=
  negb (R.destroyed r) && R.isActive r
  && negb (Qlt_bool (time - R.lastFrameTime r) R.frameInterval).

(** Did this frame pass the throttle of [update]? *)
Definition passed (f : Frame) (r : R.t) : bool := throttleOpen (tick f) r.

(** Does the sink report a usable size at this frame? *)
Definition ready (f : Frame) : bool :=
  negb ((sinkWidth f =? 0)%Z || (sinkHeight f =? 0)%Z).

Fixpoint runFrames (fs : list Frame) (r : R.t) : R.t :=
  match fs with
  | [] => r
  | f :: fs => runFrames fs (runFrame f r)
  end.

(** The ticks of a run at which the video was drawn, oldest first. *)
Fixpoint redrawTimes (fs : list Frame) (r : R.t) : list Q :=
  match fs with
  | [] => []
  | f :: fs =>
      (if redrawn f r then [tick f] else []) ++ redrawTimes fs (runFrame f r)
  end.

(** The ticks of a run that passed the throttle, oldest first. *)
Fixpoint passTimes (fs : list Frame) (r : R.t) : list Q :=
  match fs with
  | [] => []
  | f :: fs =>
      (if passed f r then [tick f] else []) ++ passTimes fs (runFrame f r)
  end.

(** Successive elements are at least [gap] apart. *)
Fixpoint spaced (gap : Q) (ts : list Q) : Prop :=
  match ts with
  | [] => True
  | t1 :: rest =>
      match rest with
      | [] => True
      | t2 :: _ => (gap <= t2 - t1)%Q ∧ spaced gap rest
      end
  end.

(** The tick of index [k] in a series of ticks 10 ms apart from [t0]. *)
Definition tickAt (t0 : Q) (k : nat) : Q := (t0 + 10 * inject_Z (Z.of_nat k))%Q.

(** [n] frames 10 ms apart, the first one at [tickAt t0 k]; [size i] is
    what the sink reports at the frame of index [i]. *)
Fixpoint every10ms (t0 : Q) (size : nat → Z * Z) (k n : nat) : list Frame :=
  match n with
  | O => []
  | S n =>
      {| tick := tickAt t0 k;
         sinkWidth := fst (size k); sinkHeight := snd (size k) |}
      :: every10ms t0 size (S k) n
  end.

(** A fresh instance, as the constructor leaves it when both allocations
    succeed. *)
Definition fresh (key : string) : R.t := R.drawPlaceholder (R.initial key).

(** The page of a fresh instance. *)
Definition freshPage (key : string) : R.Page :=
  {| R.instance := fresh key; R.loading := []; R.console := [] |}.

(** A camera stream with one video track. *)
Definition camera : R.MediaStream := {| R.getVideoTracks := ["camera"] |}.

(** Quantities named by the specification. *)
Definition sourceWidth (r : R.t) : Q := inject_Z (R.videoWidth (R.videoElement r)).
Definition sourceHeight (r : R.t) : Q := inject_Z (R.videoHeight (R.videoElement r)).
Definition imageAspect (img : R.HTMLImageElement) : Q :=
  (inject_Z (R.width img) / inject_Z (R.height img))%Q.
Definition destAspect : Q := (R.SPRITE_WIDTH / R.SPRITE_HEIGHT)%Q.

(** Sample inputs. *)

(** A live instance whose camera reports 1920x1080. *)
Definition hdVideo : R.t :=
  R.videoReports 1920 1080 (R.setStream (Some camera) (fresh "local_video_avatar")).

(** A portrait mask of 90x160 pixels, and an instance that caches it. *)
Definition portrait : R.HTMLImageElement :=
  {| R.src := "/resources/masks/avatar-1.svg"; R.width := 90; R.height := 160 |}.

Definition masked : R.t := R.img_onload portrait (fresh "local_video_avatar").


(** A page whose instance was destroyed while the load of a mask was
    still in flight. *)
Definition maskUrl : string := "/resources/masks/avatar-1.svg".

Definition abandoned : R.t :=
  R.destroy true (fst (R.setMaskImage (Some maskUrl) (fresh "local_video_avatar"))).

Definition abandonedPage : R.Page :=
  {| R.instance := abandoned; R.loading := [maskUrl]; R.console := [] |}.

(** The page of a fresh instance after [setMaskImage(maskUrl)], and the
    same page after a following [setMaskImage(null)]. *)
Definition loadingPage : R.Page :=
  {| R.instance := fst (R.setMaskImage (Some maskUrl) (fresh "local_video_avatar"));
     R.loading := [maskUrl]; R.console := [] |}.






(** A fresh instance with the camera attached. *)
Definition live : R.t := R.setStream (Some camera) (fresh "local_video_avatar").

(** A frame at 100 ms at which the sink has no size yet. *)
Definition earlyFrame : Frame := {| tick := 100; sinkWidth := 0; sinkHeight := 0 |}.

(** A sink that always reports 640x480. *)
Definition vga (i : nat) : Z * Z := (640, 480)%Z.

(** A page that grants every allocation. *)
Definition granted : R.Allocation :=
  {| R.context2d := true; R.canvasTextureCreated := true |}.

(** A participant joins with the camera on:
    [manager.getOrCreateRenderer(id).setStream(camera)]. *)
Definition join (spaceUserId : string) (m : M.t) : M.t :=
  match M.getOrCreateRenderer granted spaceUserId m with
  | (Ok l, m') => M.onInstance l (R.setStream (Some camera)) m'
  | (Throw _, m') => m'
  end.

(** The local player with the camera on. *)
Definition alone : M.t :=
  match M.createLocalRenderer granted M.new with
  | (Ok l, m') => M.onInstance l (R.setStream (Some camera)) m'
  | (Throw _, m') => m'
  end.

(** The local player and eight peers, all with the camera on. *)
Definition crowded : M.t :=
  foldr join alone
        ["peer1"; "peer2"; "peer3"; "peer4"; "peer5"; "peer6"; "peer7"; "peer8"].

(** The registry states that calls can produce: the methods of the
    registry, and any method call or handler [f] on an instance obtained
    from it. *)
Inductive reachable : M.t → Prop :=
| reach_new : reachable M.new
| reach_createLocalRenderer env m :
    reachable m → reachable (snd (M.createLocalRenderer env m))
| reach_createRemoteRenderer env spaceUserId m :
    reachable m → reachable (snd (M.createRemoteRenderer env spaceUserId m))
| reach_getOrCreateRenderer env spaceUserId m :
    reachable m → reachable (snd (M.getOrCreateRenderer env spaceUserId m))
| reach_update time m :
    reachable m → reachable (M.update time m)
| reach_removeRenderer textureExists spaceUserId m :
    reachable m → reachable (M.removeRenderer textureExists spaceUserId m)
| reach_destroy textureExists m :
    reachable m → reachable (M.destroy textureExists m)
| reach_onInstance l f m :
    reachable m → reachable (M.onInstance l f m).

(** References are valid and no instance is registered twice. *)
Record registered (m : M.t) : Prop := {
  local_valid : ∀ l, M.localRenderer m = Some l → (l < length (M.store m))%nat;
  remote_valid : ∀ id l,
    M.renderers m !! id = Some l → (l < length (M.store m))%nat;
  remote_distinct : ∀ id1 id2 l,
    M.renderers m !! id1 = Some l → M.renderers m !! id2 = Some l → id1 = id2;
  local_not_remote : ∀ id l,
    M.renderers m !! id = Some l → M.localRenderer m ≠ Some l }.

(** The crowded room after a ninth peer was given an instance. *)
Definition ninth : M.t := snd (M.getOrCreateRenderer granted "peer9" crowded).

(** What holds of an instance created under [key] whatever happens to
    it: a live instance shows its canvas, the mode follows the attached
    stream, a destroyed instance holds nothing, and the key is kept. *)
Record sound (key : string) (r : R.t) : Prop := {
  sound_texture :
    R.destroyed r = false → R.shown (R.canvasTexture r) = R.canvas r;
  sound_mode : R.isActive r = R.hasVideoTrack (R.srcObject (R.videoElement r));
  sound_destroyed :
    R.destroyed r = true →
    R.isActive r = false ∧ R.currentMaskImage r = None
    ∧ R.srcObject (R.videoElement r) = None;
  sound_key : R.textureKey r = key }.

(** A session of one instance: the camera comes on, a mask is requested,
    two frames are rendered, the mask arrives, the camera goes off. *)
Definition session : list R.Event :=
  [ R.call_setStream (Some camera);
    R.call_setMaskImage (Some maskUrl);
    R.video_reports 640 480;
    R.call_update 1000;
    R.call_update 1100;
    R.image_loaded maskUrl 90 160;
    R.call_setStream None ].

(** The same session, ended by [destroy()]. *)
Definition closedSession : list R.Event := (session ++ [R.call_destroy true])%list.

(** The pages the two sessions end in. *)
Definition afterSession : R.Page :=
  default (freshPage "local_video_avatar")
          (R.fireAll session (freshPage "local_video_avatar")).

Definition afterClosedSession : R.Page :=
  default (freshPage "local_video_avatar")
          (R.fireAll closedSession (freshPage "local_video_avatar")).

(** A reference the registry holds: the local one or a remote one. *)
Definition registeredRef (m : M.t) (l : nat) : Prop :=
  M.localRenderer m = Some l ∨ ∃ id, M.renderers m !! id = Some l.

(** Nothing is left of the texture keys once a scene is torn down. *)
Definition noTexture (key : string) : bool := false.

(** Every texture key is still known to the scene. *)
Definition everyTexture (key : string) : bool := true.

(** What a call or a handler does to the instance it runs on (the
    instance part of [R.fire]). *)
Definition react (e : R.Event) (r : R.t) : R.t :=
  match e with
  | R.call_setStream stream => R.setStream stream r
  | R.call_setMaskImage imageUrl => fst (R.setMaskImage imageUrl r)
  | R.call_update time => R.update time r
  | R.call_destroy textureExists => R.destroy textureExists r
  | R.video_reports w h => R.videoReports w h r
  | R.play_rejected _ => r
  | R.image_loaded url w h =>
      R.img_onload {| R.src := url; R.width := w; R.height := h |} r
  | R.image_failed url => fst (R.img_onerror url r)
  end.

(** The registry states that the methods of the registry and the calls
    and handlers of the instances can produce. *)
Inductive operated : M.t → Prop :=
| op_new : operated M.new
| op_createLocalRenderer env m :
    operated m → operated (snd (M.createLocalRenderer env m))
| op_createRemoteRenderer env spaceUserId m :
    operated m → operated (snd (M.createRemoteRenderer env spaceUserId m))
| op_getOrCreateRenderer env spaceUserId m :
    operated m → operated (snd (M.getOrCreateRenderer env spaceUserId m))
| op_update time m :
    operated m → operated (M.update time m)
| op_removeRenderer textureExists spaceUserId m :
    operated m → operated (M.removeRenderer textureExists spaceUserId m)
| op_destroy textureExists m :
    operated m → operated (M.destroy textureExists m)
| op_react l e m :
    operated m → operated (M.onInstance l (react e) m).

(** Every registered instance draws into the texture named after its
    place in the registry. *)
Record keyed (m : M.t) : Prop := {
  local_key : ∀ l r,
    M.localRenderer m = Some l → M.store m !! l = Some r →
    R.textureKey r = "local_video_avatar";
  remote_key : ∀ id l r,
    M.renderers m !! id = Some l → M.store m !! l = Some r →
    R.textureKey r = "remote_video_" ++ id }.

(** * The preference stores and the mask panel

    [play/src/front/Stores/AvatarModeStore.ts], the upload handler of
    [MaskSelector.svelte] and the toggle button.  A store is modelled by
    its value; what a method asks of the collaborators that are not part
    of these files (the persisted preferences, the camera request) is
    returned as the list of requests it makes, in order. *)

Module AvatarModeStore.

Inductive AvatarMode := video | mask.

Record Mask := { id : string; url : string; name : string }.

Definition DEFAULT_MASKS : list Mask :=
  [ {| id := "default-silhouette"; url := "/resources/masks/default-silhouette.svg";
       name := "Silhouette" |};
    {| id := "avatar-1"; url := "/resources/masks/avatar-1.svg"; name := "Avatar 1" |};
    {| id := "avatar-2"; url := "/resources/masks/avatar-2.svg"; name := "Avatar 2" |};
    {| id := "avatar-3"; url := "/resources/masks/avatar-3.svg"; name := "Avatar 3" |};
    {| id := "avatar-4"; url := "/resources/masks/avatar-4.svg"; name := "Avatar 4" |};
    {| id := "avatar-5"; url := "/resources/masks/avatar-5.svg"; name := "Avatar 5" |};
    {| id := "avatar-6"; url := "/resources/masks/avatar-6.svg"; name := "Avatar 6" |};
    {| id := "anonymous"; url := "/resources/masks/anonymous.svg"; name := "Anonymous" |} ].

(** [DEFAULT_MASKS[0].url] *)
Definition defaultUrl : string :=
  match DEFAULT_MASKS with
  | m :: _ => url m
  | [] => ""
  end.

(** A request to a collaborator. *)
Inductive Request :=
| setAvatarMode (mode : AvatarMode)          (* localUserStore.setAvatarMode *)
| saveMaskImage (imageUrl : option string)   (* localUserStore.setMaskImage *)
| enableWebcam                               (* requestedCameraState *)
| disableWebcam.

(** [a || b] on values that are a string or [null]. *)
Definition orElse (a : option string) (b : string) : string :=
  match a with
  | Some (String c rest) => String c rest
  | _ => b
  end.

(** The avatar mode store: [setMode] and [toggleMode] return the new value
    and the requests made. *)
Definition setMode (mode : AvatarMode) (current : AvatarMode)
    : AvatarMode * list Request :=
  (mode, [setAvatarMode mode]).

Definition toggleMode (current : AvatarMode) : AvatarMode * list Request :=
  let newMode := match current with video => mask | mask => video end in
  (newMode, [setAvatarMode newMode]).

(** The mask image store: its first value, given the saved preference, and
    its two setters. *)
Definition initialMaskImage (savedMask : option string) : option string :=
  Some (orElse savedMask defaultUrl).

Definition setMaskImage (imageUrl : option string) (current : option string)
    : option string * list Request :=
  (imageUrl, [saveMaskImage imageUrl]).

Definition setCustomMask (dataUrl : string) (current : option string)
    : option string * list Request :=
  (Some dataUrl, [saveMaskImage (Some dataUrl)]).

(** The two derived stores. *)
Definition shouldShowVideoStore (avatarMode : AvatarMode) : bool :=
  match avatarMode with video => true | mask => false end.

Definition currentMaskUrlStore (avatarMode : AvatarMode) (maskImage : option string)
    : option string :=
  match avatarMode with
  | video => None
  | mask => Some (orElse maskImage defaultUrl)
  end.

End AvatarModeStore.

Module MaskSelector.

(** [isCustomMask]: a mask is selected and it is none of the presets. *)
Definition isCustomMask (selectedMask : option string) : bool :=
  match selectedMask with
  | Some (String c rest) =>
      negb (existsb (λ m, String.eqb (AvatarModeStore.url m) (String c rest))
                    AvatarModeStore.DEFAULT_MASKS)
  | _ => false
  end.

(** [selectMask(url)] *)
Definition selectMask (url : string) (current : option string)
    : option string * list AvatarModeStore.Request :=
  AvatarModeStore.setMaskImage (Some url) current.

(** The file picked in the input: its MIME type and its size in bytes. *)
Record File := { type : string; size : Z }.

(** What [handleFileSelect] does with [input.files?.[0]]: nothing, a
    warning, or reading the file. *)
Inductive Selection :=
| ignored
| rejected (warning : string)
| read.

Definition handleFileSelect (file : option File) : Selection :=
  match file with
  | None => ignored
  | Some file =>
      if negb (String.prefix "image/" (type file)) then
        rejected "Invalid file type. Please select an image."
      else if (100 * 1024 <? size file)%Z then
        rejected "File too large. Please select an image under 100KB."
      else read
  end.

Definition maxSize : Q := 64.

(** The size the uploaded image is drawn at ([width], [height] after the
    two nested tests of [img.onload]). *)
Definition resized (imgWidth imgHeight : Z) : Q * Q :=
  let width := inject_Z imgWidth in
  let height := inject_Z imgHeight in
  if Qlt_bool height width then
    if Qlt_bool maxSize width
    then (maxSize, (height * maxSize / width)%Q)
    else (width, height)
  else
    if Qlt_bool maxSize height
    then ((width * maxSize / height)%Q, maxSize)
    else (width, height).

End MaskSelector.

Module AvatarModeToggle.

(** [toggleAvatarMode]: the new mode and the requests made. *)
Definition toggleAvatarMode (avatarModeStore : AvatarModeStore.AvatarMode)
    : AvatarModeStore.AvatarMode * list AvatarModeStore.Request :=
  match avatarModeStore with
  | AvatarModeStore.video =>
      let (mode, requests) :=
        AvatarModeStore.setMode AvatarModeStore.mask avatarModeStore in
      (mode, (requests ++ [AvatarModeStore.disableWebcam])%list)
  | AvatarModeStore.mask =>
      let (mode, requests) :=
        AvatarModeStore.setMode AvatarModeStore.video avatarModeStore in
      (mode, (requests ++ [AvatarModeStore.enableWebcam])%list)
  end.

(** [isVideoMode] *)
Definition isVideoMode (avatarModeStore : AvatarModeStore.AvatarMode) : bool :=
  match avatarModeStore with
  | AvatarModeStore.video => true
  | AvatarModeStore.mask => false
  end.

End AvatarModeToggle.

Module S := AvatarModeStore.

(** * Properties *)

(** ** Arithmetic of the two fits *)

Section Arithmetic.
Local Open Scope Q_scope.

Lemma Qlt_bool_true (x y : Q) : Qlt_bool x y = true ↔ x < y.
Proof.
  unfold Qlt_bool. rewrite negb_true_iff, <- not_true_iff_false, Qle_bool_iff.
  split; [apply Qnot_le_lt | apply Qlt_not_le].
Qed.

Lemma Qlt_bool_false (x y : Q) : Qlt_bool x y = false ↔ y <= x.
Proof.
  unfold Qlt_bool. rewrite negb_false_iff. apply Qle_bool_iff.
Qed.

Lemma destAspect_one : destAspect == 1.
Proof. reflexivity. Qed.

(** For a positive divisor, a quotient exceeds 1 exactly when the
    numerator exceeds the divisor. *)
Lemma one_lt_ratio (a b : Q) : 0 < b → (1 < a / b ↔ b < a).
Proof.
  intros Hb. split; intros H.
  - apply (Qmult_lt_r _ _ b Hb) in H.
    assert (E : a / b * b == a) by (field; lra).
    rewrite E in H. lra.
  - apply Qlt_shift_div_l; [assumption | lra].
Qed.

Lemma inject_Z_pos (z : Z) : (0 < z)%Z → 0 < inject_Z z.
Proof. intros H. rewrite (Zlt_Qlt 0 z) in H. exact H. Qed.

End Arithmetic.

(** ** The canvas after each drawer *)

Lemma canvas_refreshTexture (r : R.t) : R.canvas (R.refreshTexture r) = R.canvas r.
Proof. unfold R.refreshTexture. destruct (R.destroyed r); reflexivity. Qed.

Lemma canvas_drawPlaceholder (r : R.t) :
  R.canvas (R.drawPlaceholder r) = (R.canvas r ++ R.placeholderOps)%list.
Proof. unfold R.drawPlaceholder. rewrite canvas_refreshTexture. reflexivity. Qed.

Lemma canvas_drawVideoFrame (r : R.t) :
  R.canvas (R.drawVideoFrame r)
  = (R.canvas r ++ R.videoOps (R.videoElement r))%list.
Proof. unfold R.drawVideoFrame. rewrite canvas_refreshTexture. reflexivity. Qed.

Lemma canvas_drawMaskToCanvas (r : R.t) (img : R.HTMLImageElement) :
  R.currentMaskImage r = Some img →
  R.canvas (R.drawMaskToCanvas r) = (R.canvas r ++ R.maskOps img)%list.
Proof.
  intros H. unfold R.drawMaskToCanvas. rewrite H, canvas_refreshTexture.
  reflexivity.
Qed.

Section Fits.
Local Open Scope Q_scope.

(** Linear goals in which the only division is a halving. *)
Local Ltac halves :=
  unfold Qdiv; change (/ 2) with (1 # 2); lra.

(** C3.  For a video frame of positive size, [drawVideoFrame] clears the
    32x32 canvas and draws the source rectangle [sx, sy, sw, sh] onto the
    whole destination [0, 0, Dw, Dh].  If Sw/Sh > Dw/Dh the rectangle is
    sw = Sh*(Dw/Dh), sx = (Sw - sw)/2, sy = 0, sh = Sh; otherwise it is
    sh = Sw/(Dw/Dh), sy = (Sh - sh)/2, sx = 0, sw = Sw.  In both cases the
    rectangle lies inside the source and has the aspect of the
    destination (cover fit). *)
Theorem C3_video_cover_fit (r : R.t)
    (Hw : (0 < R.videoWidth (R.videoElement r))%Z)
    (Hh : (0 < R.videoHeight (R.videoElement r))%Z) :
  ∃ sx sy sw sh : Q,
    R.canvas (R.drawVideoFrame r)
    = (R.canvas r
       ++ [ R.clearRect 0 0 R.SPRITE_WIDTH R.SPRITE_HEIGHT;
            R.drawImage9 (R.videoElement r) sx sy sw sh
                         0 0 R.SPRITE_WIDTH R.SPRITE_HEIGHT ])%list
    ∧ (destAspect < sourceWidth r / sourceHeight r →
       sw == sourceHeight r * destAspect ∧ sx == (sourceWidth r - sw) / 2
       ∧ sy == 0 ∧ sh == sourceHeight r)
    ∧ (¬ destAspect < sourceWidth r / sourceHeight r →
       sh == sourceWidth r / destAspect ∧ sy == (sourceHeight r - sh) / 2
       ∧ sx == 0 ∧ sw == sourceWidth r)
    ∧ 0 <= sx ∧ 0 <= sy
    ∧ sx + sw <= sourceWidth r ∧ sy + sh <= sourceHeight r
    ∧ sw / sh == destAspect.
Proof.
  pose proof (inject_Z_pos _ Hw) as Pw. pose proof (inject_Z_pos _ Hh) as Ph.
  fold (sourceWidth r) in Pw. fold (sourceHeight r) in Ph.
  exists (R.rx (R.videoSourceRect (R.videoElement r))),
         (R.ry (R.videoSourceRect (R.videoElement r))),
         (R.rw (R.videoSourceRect (R.videoElement r))),
         (R.rh (R.videoSourceRect (R.videoElement r))).
  split; [apply canvas_drawVideoFrame |].
  unfold R.videoSourceRect.
  fold (sourceWidth r) (sourceHeight r) destAspect.
  destruct (Qlt_bool destAspect (sourceWidth r / sourceHeight r)) eqn:E; cbn [R.rx R.ry R.rw R.rh].
  - apply Qlt_bool_true in E.
    assert (Hlt : sourceHeight r < sourceWidth r).
    { apply one_lt_ratio; [assumption |]. rewrite <- destAspect_one. exact E. }
    repeat split; try reflexivity; try (intros; contradiction);
      rewrite ?destAspect_one; try lra; try halves.
    field. lra.
  - apply Qlt_bool_false in E.
    assert (Hle : sourceWidth r <= sourceHeight r).
    { apply Qnot_lt_le. intros H. apply (one_lt_ratio _ _ Ph) in H.
      rewrite destAspect_one in E. lra. }
    assert (Ediv : sourceWidth r / destAspect == sourceWidth r).
    { rewrite destAspect_one. field. }
    repeat split; try reflexivity; try (intros H; exfalso; lra);
      rewrite ?Ediv; try lra; try halves.
    rewrite destAspect_one. field. lra.
Qed.

(** C4.  For a cached mask image of positive size, [drawMaskToCanvas]
    fills the 32x32 canvas with the fixed colour #333333 and then draws
    the image into [dx, dy, dw, dh].  If Ia > Da the rectangle is dw = Dw,
    dh = Dw/Ia, dy = (Dh - dh)/2, dx = 0; otherwise it is dh = Dh,
    dw = Dh*Ia, dx = (Dw - dw)/2, dy = 0.  In both cases the rectangle lies
    inside the destination and has the aspect of the image (contain
    fit). *)
Theorem C4_mask_contain_fit (r : R.t) (img : R.HTMLImageElement)
    (Hmask : R.currentMaskImage r = Some img)
    (Hw : (0 < R.width img)%Z) (Hh : (0 < R.height img)%Z) :
  ∃ dx dy dw dh : Q,
    R.canvas (R.drawMaskToCanvas r)
    = (R.canvas r
       ++ [ R.fillStyle "#333333";
            R.fillRect 0 0 R.SPRITE_WIDTH R.SPRITE_HEIGHT;
            R.drawImage5 img dx dy dw dh ])%list
    ∧ (destAspect < imageAspect img →
       dw == R.SPRITE_WIDTH ∧ dh == R.SPRITE_WIDTH / imageAspect img
       ∧ dy == (R.SPRITE_HEIGHT - dh) / 2 ∧ dx == 0)
    ∧ (¬ destAspect < imageAspect img →
       dh == R.SPRITE_HEIGHT ∧ dw == R.SPRITE_HEIGHT * imageAspect img
       ∧ dx == (R.SPRITE_WIDTH - dw) / 2 ∧ dy == 0)
    ∧ 0 <= dx ∧ 0 <= dy
    ∧ dx + dw <= R.SPRITE_WIDTH ∧ dy + dh <= R.SPRITE_HEIGHT
    ∧ dw / dh == imageAspect img.
Proof.
  pose proof (inject_Z_pos _ Hw) as Pw. pose proof (inject_Z_pos _ Hh) as Ph.
  assert (Pa : 0 < imageAspect img).
  { unfold imageAspect. apply Qlt_shift_div_l; [assumption | lra]. }
  exists (R.rx (R.maskDestRect img)), (R.ry (R.maskDestRect img)),
         (R.rw (R.maskDestRect img)), (R.rh (R.maskDestRect img)).
  split; [apply canvas_drawMaskToCanvas; assumption |].
  unfold R.maskDestRect. fold (imageAspect img) destAspect.
  destruct (Qlt_bool destAspect (imageAspect img)) eqn:E;
    cbn [R.rx R.ry R.rw R.rh].
  - apply Qlt_bool_true in E.
    split; [intros _ | split; [intros H; contradiction |]].
    { repeat split; reflexivity. }
    rewrite destAspect_one in E.
    assert (Hfit : R.SPRITE_WIDTH / imageAspect img <= 32).
    { apply Qle_shift_div_r; [assumption |]. unfold R.SPRITE_WIDTH. lra. }
    assert (Hpos : 0 < R.SPRITE_WIDTH / imageAspect img).
    { apply Qlt_shift_div_l; [assumption |]. unfold R.SPRITE_WIDTH. lra. }
    repeat split; try lra.
    + set (d := R.SPRITE_WIDTH / imageAspect img) in *.
      unfold R.SPRITE_HEIGHT. halves.
    + set (d := R.SPRITE_WIDTH / imageAspect img) in *.
      unfold R.SPRITE_HEIGHT. halves.
    + unfold R.SPRITE_WIDTH. field. lra.
  - apply Qlt_bool_false in E.
    split; [intros H; exfalso; lra | split; [intros _ |]].
    { repeat split; reflexivity. }
    rewrite destAspect_one in E.
    unfold R.SPRITE_HEIGHT, R.SPRITE_WIDTH.
    repeat split; try lra; try halves.
    field.
Qed.

End Fits.

Section FitsWitnesses.
Local Open Scope Q_scope.

(** A 1920x1080 frame is cropped to its central 1080x1080 square. *)
Lemma C3_video_cover_fit_witness :
  (0 < R.videoWidth (R.videoElement hdVideo))%Z
  ∧ (0 < R.videoHeight (R.videoElement hdVideo))%Z
  ∧ ∃ sx sy sw sh : Q,
      R.canvas (R.drawVideoFrame hdVideo)
      = (R.canvas hdVideo
         ++ [ R.clearRect 0 0 R.SPRITE_WIDTH R.SPRITE_HEIGHT;
              R.drawImage9 (R.videoElement hdVideo) sx sy sw sh
                           0 0 R.SPRITE_WIDTH R.SPRITE_HEIGHT ])%list
      ∧ sx == 420 ∧ sy == 0 ∧ sw == 1080 ∧ sh == 1080.
Proof.
  split; [reflexivity | split; [reflexivity |]].
  destruct (C3_video_cover_fit hdVideo) as (sx & sy & sw & sh & Hc & Hwide & _);
    [reflexivity | reflexivity |].
  exists sx, sy, sw, sh. split; [exact Hc |].
  destruct Hwide as (Hsw & Hsx & Hsy & Hsh); [reflexivity |].
  rewrite Hsx, Hsw, Hsy, Hsh. repeat split; reflexivity.
Defined.

(** A 90x160 mask is drawn 18 wide and 32 high, 7 pixels from the left. *)
Lemma C4_mask_contain_fit_witness :
  R.currentMaskImage masked = Some portrait
  ∧ (0 < R.width portrait)%Z ∧ (0 < R.height portrait)%Z
  ∧ ∃ dx dy dw dh : Q,
      R.canvas (R.drawMaskToCanvas masked)
      = (R.canvas masked
         ++ [ R.fillStyle "#333333";
              R.fillRect 0 0 R.SPRITE_WIDTH R.SPRITE_HEIGHT;
              R.drawImage5 portrait dx dy dw dh ])%list
      ∧ dx == 7 ∧ dy == 0 ∧ dw == 18 ∧ dh == 32.
Proof.
  split; [reflexivity | split; [reflexivity | split; [reflexivity |]]].
  destruct (C4_mask_contain_fit masked portrait)
    as (dx & dy & dw & dh & Hc & _ & Htall & _);
    [reflexivity | reflexivity | reflexivity |].
  exists dx, dy, dw, dh. split; [exact Hc |].
  destruct Htall as (Hdh & Hdw & Hdx & Hdy).
  { intros H. apply Qlt_bool_true in H. discriminate H. }
  rewrite Hdx, Hdw, Hdy, Hdh. repeat split; reflexivity.
Defined.

End FitsWitnesses.

(** ** Mode changes redraw at once *)



(** ** Destroyed instances *)

(** Every method, and the load handler, returns at once on a destroyed
    instance. *)
Lemma destroyed_frozen (r : R.t) :
  R.destroyed r = true →
  (∀ stream, R.setStream stream r = r)
  ∧ (∀ imageUrl, R.setMaskImage imageUrl r = (r, None))
  ∧ (∀ time, R.update time r = r)
  ∧ (∀ textureExists, R.destroy textureExists r = r)
  ∧ (∀ img, R.img_onload img r = r).
Proof.
  intros H.
  unfold R.setStream, R.setMaskImage, R.update, R.destroy, R.img_onload.
  rewrite H. repeat split.
Qed.

(** The error handler keeps the [destroyed] flag but not the rest. *)
Lemma destroyed_img_onerror (url : string) (r : R.t) :
  R.destroyed (fst (R.img_onerror url r)) = R.destroyed r.
Proof.
  unfold R.img_onerror. cbn [fst R.set_maskLoading R.isActive].
  destruct (negb (R.isActive r)); [| reflexivity].
  unfold R.drawPlaceholder, R.refreshTexture. cbn.
  destruct (R.destroyed r) eqn:E; cbn; congruence.
Qed.

(** C1, at the input where the code departs from it.  A mask load is
    started on a fresh instance and the instance is destroyed before the
    image reports; the load then fails.  The error handler runs on the
    destroyed instance: it clears [maskLoading] and draws the placeholder
    on the private canvas, so the instance is not left unchanged.  (The
    success handler of the same load leaves it unchanged.) *)
Theorem C1_onerror_changes_destroyed_instance :
  R.fireAll [R.call_setMaskImage (Some maskUrl); R.call_destroy true]
            (freshPage "local_video_avatar")
  = Some abandonedPage
  ∧ R.destroyed abandoned = true
  ∧ R.maskLoading abandoned = true
  ∧ R.img_onload {| R.src := maskUrl; R.width := 64; R.height := 64 |} abandoned
    = abandoned
  ∧ ∃ p : R.Page,
      R.fire (R.image_failed maskUrl) abandonedPage = Some p
      ∧ R.maskLoading (R.instance p) = false
      ∧ R.canvas (R.instance p) = (R.canvas abandoned ++ R.placeholderOps)%list
      ∧ R.instance p ≠ abandoned.
Proof.
  split; [vm_compute; reflexivity |].
  split; [reflexivity |]. split; [reflexivity |].
  split; [vm_compute; reflexivity |].
  exists {| R.instance := fst (R.img_onerror maskUrl abandoned);
            R.loading := [];
            R.console := [snd (R.img_onerror maskUrl abandoned)] |}.
  split; [vm_compute; reflexivity |].
  split; [reflexivity |].
  split; [vm_compute; reflexivity |].
  intros H. apply (f_equal R.maskLoading) in H. discriminate H.
Qed.

(** ** Loads in flight *)





(** No event resurrects a destroyed instance. *)
Lemma fire_destroyed (e : R.Event) (p q : R.Page) :
  R.fire e p = Some q → R.destroyed (R.instance p) = true →
  R.destroyed (R.instance q) = true.
Proof.
  intros Hf Hd. destruct (destroyed_frozen _ Hd) as (Hs & Hm & Hu & Hk & Hl).
  destruct e; cbn in Hf.
  - injection Hf as <-. cbn. rewrite Hs. exact Hd.
  - rewrite Hm in Hf. injection Hf as <-. exact Hd.
  - injection Hf as <-. cbn. rewrite Hu. exact Hd.
  - injection Hf as <-. cbn. rewrite Hk. exact Hd.
  - injection Hf as <-. exact Hd.
  - injection Hf as <-. exact Hd.
  - destruct (R.completeLoad url (R.loading p)); [| discriminate Hf].
    injection Hf as <-. cbn. rewrite Hl. exact Hd.
  - destruct (R.completeLoad url (R.loading p)); [| discriminate Hf].
    injection Hf as <-.
    exact (eq_trans (destroyed_img_onerror url (R.instance p)) Hd).
Qed.

Lemma fireAll_destroyed (es : list R.Event) (p q : R.Page) :
  R.fireAll es p = Some q → R.destroyed (R.instance p) = true →
  R.destroyed (R.instance q) = true.
Proof.
  revert p. induction es as [| e es IH]; intros p Hf Hd.
  - injection Hf as <-. exact Hd.
  - cbn [R.fireAll] in Hf. destruct (R.fire e p) as [p' |] eqn:E;
      [| discriminate Hf].
    eapply IH; [eassumption |]. eapply fire_destroyed; eassumption.
Qed.

(** What the success handler does on a live instance. *)
Lemma img_onload_live (img : R.HTMLImageElement) (r : R.t) :
  R.destroyed r = false →
  R.currentMaskImage (R.img_onload img r) = Some img
  ∧ R.maskLoading (R.img_onload img r) = false
  ∧ R.canvas (R.img_onload img r)
    = (R.canvas r ++ if R.isActive r then [] else R.maskOps img)%list
  ∧ (R.isActive r = false →
     R.shown (R.canvasTexture (R.img_onload img r))
     = R.canvas (R.img_onload img r)).
Proof.
  intros Hd. unfold R.img_onload. rewrite Hd.
  cbn [R.set_maskLoading R.set_currentMaskImage R.isActive].
  destruct (R.isActive r) eqn:Ha; cbn [negb].
  - cbn. rewrite app_nil_r. repeat split. discriminate.
  - unfold R.drawMaskToCanvas, R.refreshTexture, R.draw, R.set_canvas. cbn.
    rewrite Hd. cbn. repeat split.
Qed.




(** ** The throttle of [update] *)

Section Throttle.
Local Open Scope Q_scope.

Lemma throttleOpen_true (time : Q) (r : R.t) :
  throttleOpen time r = true
  ↔ R.destroyed r = false ∧ R.isActive r = true
    ∧ R.frameInterval <= time - R.lastFrameTime r.
Proof.
  unfold throttleOpen.
  rewrite !andb_true_iff, !negb_true_iff, Qlt_bool_false. tauto.
Qed.

(** What one frame does: nothing when the throttle is closed; otherwise
    the clock is set to the tick and, if the sink has a size, the video is
    drawn. *)
Lemma runFrame_cases (f : Frame) (r : R.t) :
  runFrame f r
  = let r0 := R.videoReports (sinkWidth f) (sinkHeight f) r in
    if passed f r then
      if ready f then R.drawVideoFrame (R.set_lastFrameTime (tick f) r0)
      else R.set_lastFrameTime (tick f) r0
    else r0.
Proof.
  unfold runFrame, R.update, passed, throttleOpen, ready.
  cbn [R.videoReports R.set_videoElement R.destroyed R.isActive
       R.lastFrameTime R.videoElement R.videoWidth R.videoHeight
       R.set_lastFrameTime].
  destruct (R.destroyed r); [reflexivity |].
  destruct (R.isActive r); [| reflexivity].
  cbn [negb andb].
  destruct (Qlt_bool (tick f - R.lastFrameTime r) R.frameInterval);
    [reflexivity |].
  cbn [negb].
  destruct ((sinkWidth f =? 0)%Z || (sinkHeight f =? 0)%Z)%bool; reflexivity.
Qed.

Lemma runFrame_lastFrameTime (f : Frame) (r : R.t) :
  R.lastFrameTime (runFrame f r)
  = if passed f r then tick f else R.lastFrameTime r.
Proof.
  rewrite runFrame_cases. cbv zeta.
  destruct (passed f r); [| reflexivity].
  destruct (ready f); [| reflexivity].
  unfold R.drawVideoFrame, R.refreshTexture. cbn.
  destruct (R.destroyed r); reflexivity.
Qed.

Lemma runFrame_destroyed (f : Frame) (r : R.t) :
  R.destroyed (runFrame f r) = R.destroyed r.
Proof.
  rewrite runFrame_cases. cbv zeta.
  destruct (passed f r); [| reflexivity].
  destruct (ready f); [| reflexivity].
  unfold R.drawVideoFrame, R.refreshTexture. cbn.
  destruct (R.destroyed r) eqn:E; cbn; congruence.
Qed.

Lemma runFrame_isActive (f : Frame) (r : R.t) :
  R.isActive (runFrame f r) = R.isActive r.
Proof.
  rewrite runFrame_cases. cbv zeta.
  destruct (passed f r); [| reflexivity].
  destruct (ready f); [| reflexivity].
  unfold R.drawVideoFrame, R.refreshTexture. cbn.
  destruct (R.destroyed r); reflexivity.
Qed.

Lemma runFrame_videoDraws (f : Frame) (r : R.t) :
  videoDraws (runFrame f r)
  = (videoDraws r + if passed f r && ready f then 1 else 0)%nat.
Proof.
  rewrite runFrame_cases. cbv zeta.
  destruct (passed f r); cbn [andb].
  - destruct (ready f).
    + unfold videoDraws. rewrite canvas_drawVideoFrame.
      rewrite List.filter_app, length_app. reflexivity.
    + unfold videoDraws. cbn. lia.
  - unfold videoDraws. cbn. lia.
Qed.

(** The video is drawn exactly when the throttle is open and the sink has
    a size. *)
Lemma redrawn_spec (f : Frame) (r : R.t) :
  redrawn f r = passed f r && ready f.
Proof.
  unfold redrawn. rewrite runFrame_videoDraws.
  destruct (passed f r && ready f).
  - apply Nat.ltb_lt. lia.
  - apply Nat.ltb_ge. lia.
Qed.

Lemma runFrame_monotone (f : Frame) (r : R.t) :
  R.lastFrameTime r <= R.lastFrameTime (runFrame f r).
Proof.
  rewrite runFrame_lastFrameTime. destruct (passed f r) eqn:E; [| lra].
  apply throttleOpen_true in E. destruct E as (_ & _ & E).
  unfold R.frameInterval in E. lra.
Qed.

Lemma runFrames_monotone (fs : list Frame) (r : R.t) :
  R.lastFrameTime r <= R.lastFrameTime (runFrames fs r).
Proof.
  revert r. induction fs as [| f fs IH]; intros r; cbn [runFrames]; [lra |].
  pose proof (runFrame_monotone f r). pose proof (IH (runFrame f r)). lra.
Qed.

End Throttle.

(** ** The throttle clock over a run *)

Lemma runFrames_lastFrameTime (fs : list Frame) (r : R.t) :
  R.lastFrameTime (runFrames fs r)
  = default (R.lastFrameTime r) (last (passTimes fs r)).
Proof.
  revert r. induction fs as [| f fs IH]; intros r; [reflexivity |].
  cbn [runFrames passTimes]. rewrite IH, last_app, runFrame_lastFrameTime.
  destruct (last (passTimes fs (runFrame f r))); [reflexivity |].
  destruct (passed f r); reflexivity.
Qed.

Lemma redrawTimes_sublist (fs : list Frame) (r : R.t) :
  redrawTimes fs r `sublist_of` passTimes fs r.
Proof.
  revert r. induction fs as [| f fs IH]; intros r; [constructor |].
  cbn [redrawTimes passTimes]. apply sublist_app; [| apply IH].
  rewrite redrawn_spec. destruct (passed f r); cbn [andb]; [| constructor].
  destruct (ready f); [reflexivity | apply sublist_nil_l].
Qed.

Lemma redrawTimes_ready (fs : list Frame) (r : R.t) :
  Forall (λ f, ready f = true) fs → redrawTimes fs r = passTimes fs r.
Proof.
  intros H. revert r. induction H as [| f fs Hf _ IH]; intros r; [reflexivity |].
  cbn [redrawTimes passTimes]. rewrite IH, redrawn_spec, Hf, andb_true_r.
  reflexivity.
Qed.

(** C5, as the code has it.  After any run of frames, [lastFrameTime] is
    the last tick at which the throttle of [update] was passed (its
    initial value if none was), and it never decreases.  [update] moves it
    exactly when the instance is live, in video mode and the interval has
    elapsed, whether or not the video is then drawn; the ticks at which
    the video was drawn are among the ticks that passed the throttle, and
    are all of them when the sink had a size at every frame. *)
Theorem C5_lastFrameTime_is_last_throttle_pass (fs : list Frame) (r : R.t) :
  R.lastFrameTime (runFrames fs r)
  = default (R.lastFrameTime r) (last (passTimes fs r))
  ∧ (R.lastFrameTime r <= R.lastFrameTime (runFrames fs r))%Q
  ∧ redrawTimes fs r `sublist_of` passTimes fs r
  ∧ (Forall (λ f, ready f = true) fs → redrawTimes fs r = passTimes fs r)
  ∧ (∀ f : Frame,
       R.lastFrameTime (runFrame f r)
       = (if passed f r then tick f else R.lastFrameTime r)
       ∧ redrawn f r = passed f r && ready f).
Proof.
  split; [apply runFrames_lastFrameTime |].
  split; [apply runFrames_monotone |].
  split; [apply redrawTimes_sublist |].
  split; [apply redrawTimes_ready |].
  intros f. split; [apply runFrame_lastFrameTime | apply redrawn_spec].
Qed.

(** Three frames from 1000 ms on a live instance whose sink has a size:
    the first one passes the throttle and is drawn. *)
Lemma C5_lastFrameTime_is_last_throttle_pass_witness :
  Forall (λ f, ready f = true) (every10ms 1000 vga 0 3)
  ∧ redrawTimes (every10ms 1000 vga 0 3) live
    = passTimes (every10ms 1000 vga 0 3) live
  ∧ R.lastFrameTime (runFrames (every10ms 1000 vga 0 3) live)
    = default (R.lastFrameTime live)
              (last (passTimes (every10ms 1000 vga 0 3) live)).
Proof.
  assert (H : Forall (λ f, ready f = true) (every10ms 1000 vga 0 3)).
  { repeat constructor. }
  split; [exact H |].
  destruct (C5_lastFrameTime_is_last_throttle_pass (every10ms 1000 vga 0 3) live)
    as (Hlast & _ & _ & Hall & _).
  split; [exact (Hall H) | exact Hlast].
Defined.

(** C5 as stated fails: on a live instance in video mode whose sink has
    no size yet, [update(100)] moves [lastFrameTime] from 0 to 100 and
    draws nothing. *)
Lemma C5_counterexample :
  R.destroyed live = false
  ∧ R.isVideoActive live = true
  ∧ R.lastFrameTime live = 0%Q
  ∧ R.lastFrameTime (runFrame earlyFrame live) = 100%Q
  ∧ redrawn earlyFrame live = false
  ∧ redrawTimes [earlyFrame] live = []
  ∧ R.canvas (runFrame earlyFrame live) = R.canvas live.
Proof. repeat split. Qed.

(** ** Redraws are at least one interval apart *)

Section Spacing.
Local Open Scope Q_scope.

Lemma redrawn_only_after_interval (f : Frame) (r : R.t) :
  redrawn f r = true →
  R.destroyed r = false ∧ R.isActive r = true
  ∧ R.frameInterval <= tick f - R.lastFrameTime r.
Proof.
  rewrite redrawn_spec, andb_true_iff. intros [H _].
  apply throttleOpen_true. exact H.
Qed.

Lemma spaced_cons (gap t1 : Q) (rest : list Q) :
  Forall (λ t, gap <= t - t1) rest → spaced gap rest → spaced gap (t1 :: rest).
Proof.
  intros Hall Hs. destruct rest as [| t2 rest]; [exact I |].
  cbn [spaced]. split; [| exact Hs]. inversion Hall; assumption.
Qed.

(** Every redraw of a run comes one interval or more after the clock at
    the start of the run, and after the redraw before it. *)
Lemma redrawTimes_spaced (fs : list Frame) (r : R.t) :
  Forall (λ t, R.frameInterval <= t - R.lastFrameTime r) (redrawTimes fs r)
  ∧ spaced R.frameInterval (redrawTimes fs r).
Proof.
  revert r. induction fs as [| f fs IH]; intros r.
  - split; [constructor | exact I].
  - cbn [redrawTimes]. destruct (IH (runFrame f r)) as [Hall Hs].
    pose proof (runFrame_monotone f r) as Hmono.
    destruct (redrawn f r) eqn:E; cbn [app].
    + pose proof E as E'. apply redrawn_only_after_interval in E'.
      destruct E' as (_ & _ & Hgap).
      assert (Hclock : R.lastFrameTime (runFrame f r) = tick f).
      { rewrite runFrame_lastFrameTime.
        rewrite redrawn_spec, andb_true_iff in E. destruct E as [-> _].
        reflexivity. }
      rewrite Hclock in Hall. split.
      * constructor; [exact Hgap |].
        eapply Forall_impl; [exact Hall |]. cbn. intros t Ht.
        unfold R.frameInterval in *. lra.
      * apply spaced_cons; assumption.
    + split; [| exact Hs].
      eapply Forall_impl; [exact Hall |]. cbn. intros t Ht. lra.
Qed.

(** The redraws of a run are the video frames added to the canvas. *)
Lemma redrawTimes_length (fs : list Frame) (r : R.t) :
  videoDraws (runFrames fs r) = (videoDraws r + length (redrawTimes fs r))%nat.
Proof.
  revert r. induction fs as [| f fs IH]; intros r; cbn [runFrames redrawTimes].
  - cbn. lia.
  - rewrite IH, length_app. unfold redrawn.
    destruct (videoDraws r <? videoDraws (runFrame f r))%nat eqn:E.
    + rewrite runFrame_videoDraws in *.
      destruct (passed f r && ready f); cbn [length]; [lia |].
      apply Nat.ltb_lt in E. lia.
    + rewrite runFrame_videoDraws in *.
      destruct (passed f r && ready f); cbn [length]; [| lia].
      apply Nat.ltb_ge in E. lia.
Qed.

End Spacing.

(** ** Ticks 10 ms apart *)

Section TenMilliseconds.
Local Open Scope Q_scope.
Variable t0 : Q.
Variable size : nat → Z * Z.

(** Two ticks of the series are one interval apart exactly when their
    indices differ by 7 or more (70 ms). *)
Lemma tick_gap (j k : nat) :
  R.frameInterval <= tickAt t0 k - tickAt t0 j ↔ (j + 7 ≤ k)%nat.
Proof.
  unfold tickAt, R.frameInterval.
  assert (E : inject_Z (Z.of_nat k - Z.of_nat j)
              == inject_Z (Z.of_nat k) - inject_Z (Z.of_nat j)).
  { unfold Z.sub. rewrite inject_Z_plus, inject_Z_opp. reflexivity. }
  split; intros H.
  - destruct (Z_le_gt_dec (Z.of_nat k - Z.of_nat j) 6) as [Hle | Hgt]; [| lia].
    rewrite Zle_Qle in Hle. rewrite E in Hle.
    change (inject_Z 6) with 6 in Hle. lra.
  - assert (Hz : (7 ≤ Z.of_nat k - Z.of_nat j)%Z) by lia.
    rewrite Zle_Qle in Hz. rewrite E in Hz.
    change (inject_Z 7) with 7 in Hz. lra.
Qed.

(** After a pass at index [j], the passes among the [n] frames from index
    [k] on are 7 indices apart. *)
Lemma passes_after_pass (n k j : nat) (r : R.t) :
  (j < k)%nat → R.lastFrameTime r == tickAt t0 j →
  (7 * length (passTimes (every10ms t0 size k n) r) + j + 1 ≤ k + n)%nat.
Proof.
  revert k j r. induction n as [| n IH]; intros k j r Hjk Hclock.
  - cbn. lia.
  - cbn [every10ms passTimes]. rewrite length_app.
    set (f := {| tick := tickAt t0 k; sinkWidth := fst (size k);
                 sinkHeight := snd (size k) |}).
    destruct (passed f r) eqn:E.
    + assert (Hgap : (j + 7 ≤ k)%nat).
      { apply throttleOpen_true in E. destruct E as (_ & _ & E).
        apply tick_gap. cbn [tick f] in E. rewrite Hclock in E. exact E. }
      assert (Hnext : R.lastFrameTime (runFrame f r) == tickAt t0 k).
      { rewrite runFrame_lastFrameTime, E. reflexivity. }
      pose proof (IH (S k) k (runFrame f r) (Nat.lt_succ_diag_r k) Hnext).
      cbn [length]. lia.
    + assert (Hnext : R.lastFrameTime (runFrame f r) == tickAt t0 j).
      { rewrite runFrame_lastFrameTime, E. exact Hclock. }
      pose proof (IH (S k) j (runFrame f r) (Nat.lt_lt_succ_r _ _ Hjk) Hnext).
      cbn [length]. lia.
Qed.

(** Whatever the instance and the sink, [n] frames 10 ms apart pass the
    throttle at most once every 7 frames. *)
Lemma passes_upper (n k : nat) (r : R.t) :
  (7 * length (passTimes (every10ms t0 size k n) r) ≤ n + 6)%nat.
Proof.
  revert k r. induction n as [| n IH]; intros k r.
  - cbn. lia.
  - cbn [every10ms passTimes]. rewrite length_app.
    set (f := {| tick := tickAt t0 k; sinkWidth := fst (size k);
                 sinkHeight := snd (size k) |}).
    destruct (passed f r) eqn:E.
    + assert (Hnext : R.lastFrameTime (runFrame f r) == tickAt t0 k).
      { rewrite runFrame_lastFrameTime, E. reflexivity. }
      pose proof (passes_after_pass n (S k) k (runFrame f r)
                    (Nat.lt_succ_diag_r k) Hnext).
      cbn [length]. lia.
    + pose proof (IH (S k) (runFrame f r)). cbn [length]. lia.
Qed.

(** A live instance in video mode whose throttle opens within [m] frames
    passes it at least once every 7 frames from then on. *)
Lemma passes_lower (n k m : nat) (r : R.t) :
  R.destroyed r = false → R.isActive r = true →
  R.frameInterval <= tickAt t0 (k + m) - R.lastFrameTime r →
  (n ≤ 7 * length (passTimes (every10ms t0 size k n) r) + m)%nat.
Proof.
  revert k m r. induction n as [| n IH]; intros k m r Hd Ha Hopen.
  - lia.
  - cbn [every10ms passTimes]. rewrite length_app.
    set (f := {| tick := tickAt t0 k; sinkWidth := fst (size k);
                 sinkHeight := snd (size k) |}).
    assert (Hd' : R.destroyed (runFrame f r) = false)
      by (rewrite runFrame_destroyed; exact Hd).
    assert (Ha' : R.isActive (runFrame f r) = true)
      by (rewrite runFrame_isActive; exact Ha).
    destruct (passed f r) eqn:E.
    + assert (Hnext : R.frameInterval
                      <= tickAt t0 (S k + 6) - R.lastFrameTime (runFrame f r)).
      { rewrite runFrame_lastFrameTime, E. cbn [tick f].
        apply tick_gap. lia. }
      pose proof (IH (S k) 6%nat (runFrame f r) Hd' Ha' Hnext).
      cbn [length]. lia.
    + destruct m as [| m].
      * exfalso. rewrite Nat.add_0_r in Hopen.
        assert (E' : passed f r = true).
        { apply throttleOpen_true. repeat split; assumption. }
        congruence.
      * assert (Hnext : R.frameInterval
                        <= tickAt t0 (S k + m) - R.lastFrameTime (runFrame f r)).
        { rewrite runFrame_lastFrameTime, E.
          replace (S k + m)%nat with (k + S m)%nat by lia. exact Hopen. }
        pose proof (IH (S k) m (runFrame f r) Hd' Ha' Hnext).
        cbn [length]. lia.
Qed.

Lemma every10ms_ready (k n : nat) :
  (∀ i, fst (size i) ≠ 0%Z ∧ snd (size i) ≠ 0%Z) →
  Forall (λ f, ready f = true) (every10ms t0 size k n).
Proof.
  intros H. revert k. induction n as [| n IH]; intros k; cbn [every10ms].
  - constructor.
  - constructor; [| apply IH]. unfold ready. cbn [sinkWidth sinkHeight].
    destruct (H k) as [Hw Hh].
    apply Z.eqb_neq in Hw, Hh. rewrite Hw, Hh. reflexivity.
Qed.

End TenMilliseconds.

(** C2, as the code has it.  The video is drawn only at a tick that is at
    least [frameInterval] (66 ms) after [lastFrameTime]; the ticks at
    which a run of frames draws the video are at least 66 ms apart, and
    they are the video frames added to the canvas.  Over 20 or 21 frames
    spaced 10 ms apart (a span of 200 ms) the video is drawn at most 3
    times; it is drawn 2 or 3 times when the instance is live and in video
    mode, the sink has a size at every frame and [lastFrameTime] is not
    later than the first tick. *)
Theorem C2_video_redraws_are_throttled
    (fs : list Frame) (r : R.t) (t0 : Q) (size : nat → Z * Z) (n : nat)
    (Hspan : (20 ≤ n ≤ 21)%nat) :
  (∀ f : Frame,
     redrawn f r = true → (R.frameInterval <= tick f - R.lastFrameTime r)%Q)
  ∧ spaced R.frameInterval (redrawTimes fs r)
  ∧ videoDraws (runFrames fs r) = (videoDraws r + length (redrawTimes fs r))%nat
  ∧ (length (redrawTimes (every10ms t0 size 0 n) r) ≤ 3)%nat
  ∧ (R.destroyed r = false → R.isVideoActive r = true →
     (R.lastFrameTime r <= t0)%Q →
     (∀ i, fst (size i) ≠ 0%Z ∧ snd (size i) ≠ 0%Z) →
     (2 ≤ length (redrawTimes (every10ms t0 size 0 n) r))%nat).
Proof.
  split; [intros f H; apply redrawn_only_after_interval in H; tauto |].
  split; [apply redrawTimes_spaced |].
  split; [apply redrawTimes_length |].
  split.
  - pose proof (sublist_length _ _ (redrawTimes_sublist (every10ms t0 size 0 n) r)).
    pose proof (passes_upper t0 size n 0 r). lia.
  - intros Hd Ha Hclock Hsize.
    rewrite (redrawTimes_ready _ r (every10ms_ready t0 size 0 n Hsize)).
    assert (Hopen : (R.frameInterval <= tickAt t0 (0 + 7) - R.lastFrameTime r)%Q).
    { change (tickAt t0 (0 + 7)) with (t0 + 10 * 7)%Q.
      unfold R.frameInterval. lra. }
    pose proof (passes_lower t0 size n 0 7 r Hd Ha Hopen). lia.
Qed.

(** A fresh instance with a camera, 21 frames from 0 ms to 200 ms. *)
Lemma C2_video_redraws_are_throttled_witness :
  (20 ≤ 21 ≤ 21)%nat
  ∧ R.destroyed live = false ∧ R.isVideoActive live = true
  ∧ (R.lastFrameTime live <= 0)%Q
  ∧ (∀ i, fst (vga i) ≠ 0%Z ∧ snd (vga i) ≠ 0%Z)
  ∧ spaced R.frameInterval (redrawTimes (every10ms 0 vga 0 21) live)
  ∧ (2 ≤ length (redrawTimes (every10ms 0 vga 0 21) live) ≤ 3)%nat.
Proof.
  assert (Hspan : (20 ≤ 21 ≤ 21)%nat) by lia.
  assert (Hclock : (R.lastFrameTime live <= 0)%Q) by (vm_compute; discriminate).
  assert (Hsize : ∀ i, fst (vga i) ≠ 0%Z ∧ snd (vga i) ≠ 0%Z)
    by (intros i; split; discriminate).
  destruct (C2_video_redraws_are_throttled
              (every10ms 0 vga 0 21) live 0 vga 21 Hspan)
    as (_ & Hspaced & _ & Hupper & Hlower).
  assert (H2 : (2 ≤ length (redrawTimes (every10ms 0 vga 0 21) live))%nat).
  { apply Hlower; [reflexivity | reflexivity | exact Hclock | exact Hsize]. }
  split; [exact Hspan |]. split; [reflexivity |]. split; [reflexivity |].
  split; [exact Hclock |]. split; [exact Hsize |].
  split; [exact Hspaced |]. split; [exact H2 | exact Hupper].
Defined.

(** C2 as stated fails on its count: a fresh instance with a camera
    that reports 640x480, ticked every 10 ms from 0 ms to 200 ms, draws
    the video twice (at 70 ms and at 140 ms), not 3 or 4 times. *)
Lemma C2_counterexample :
  R.destroyed live = false
  ∧ R.isVideoActive live = true
  ∧ redrawTimes (every10ms 0 vga 0 21) live = [70%Q; 140%Q]
  ∧ videoDraws live = 0%nat
  ∧ videoDraws (runFrames (every10ms 0 vga 0 21) live) = 2%nat
  ∧ ¬ (3 ≤ length (redrawTimes (every10ms 0 vga 0 21) live) ≤ 4)%nat.
Proof.
  split; [reflexivity |]. split; [reflexivity |].
  split; [vm_compute; reflexivity |]. split; [reflexivity |].
  split; [vm_compute; reflexivity |].
  assert (E : length (redrawTimes (every10ms 0 vga 0 21) live) = 2%nat)
    by (vm_compute; reflexivity).
  rewrite E. lia.
Qed.

(** ** The registry *)

Section Registry.

(** Counting with [forEach] is counting the entries that satisfy the
    test. *)
Lemma count_forEach (P : nat → bool) (count : nat) (mp : gmap string nat) :
  map_fold (λ _ l count, if P l then S count else count) count mp
  = (count + size (filter (λ kv, P kv.2 = true) mp))%nat.
Proof.
  apply (map_fold_weak_ind
           (λ c mp, c = (count + size (filter (λ kv, P kv.2 = true) mp))%nat)).
  - rewrite map_filter_empty, map_size_empty. lia.
  - intros i x mp' c Hi ->. destruct (P x) eqn:E.
    + rewrite map_filter_insert_True by exact E.
      rewrite map_size_insert_None; [lia |].
      apply map_lookup_filter_None_2. left. exact Hi.
    + rewrite map_filter_insert_False by (cbn; congruence).
      rewrite delete_id by exact Hi. reflexivity.
Qed.

(** C7.  [getActiveVideoCount()] is 1 if there is a local instance and it
    is video-active, else 0, plus the number of entries of the remote map
    whose instance is video-active; it is a function of the current
    registry and instances, nothing is cached.  [canAddVideoStream()] is
    true exactly when that count is below 8. *)
Theorem C7_active_video_count (m : M.t) :
  M.getActiveVideoCount m
  = ((match M.localRenderer m with
      | Some l => if M.videoActiveAt m l then 1 else 0
      | None => 0
      end)
     + size (filter (λ kv, M.videoActiveAt m kv.2 = true) (M.renderers m)))%nat
  ∧ (M.canAddVideoStream m = true ↔ (M.getActiveVideoCount m < 8)%nat)
  ∧ M.MAX_CONCURRENT_VIDEO = 8%nat.
Proof.
  split; [apply count_forEach |].
  split; [apply Nat.ltb_lt | reflexivity].
Qed.

(** The count never exceeds the number of registered instances. *)
Lemma activeVideoCount_le (m : M.t) :
  (M.getActiveVideoCount m ≤ 1 + size (M.renderers m))%nat.
Proof.
  unfold M.getActiveVideoCount. rewrite count_forEach.
  pose proof (map_subseteq_size _ _
                (map_filter_subseteq (λ kv, M.videoActiveAt m kv.2 = true)
                                     (M.renderers m))) as Hle.
  destruct (M.localRenderer m) as [l |]; [destruct (M.videoActiveAt m l) |]; lia.
Qed.

Lemma new_ok (env : R.Allocation) (key : string) :
  R.context2d env = true → R.canvasTextureCreated env = true →
  R.new env key = Ok (fresh key).
Proof. intros H1 H2. unfold R.new. rewrite H1, H2. reflexivity. Qed.

(** The constructor fails only when the page refuses an allocation. *)
Lemma new_throws (env : R.Allocation) (key message : string) :
  R.new env key = Throw message →
  R.context2d env = false ∨ R.canvasTextureCreated env = false.
Proof.
  unfold R.new. destruct (R.context2d env); [| auto].
  destruct (R.canvasTextureCreated env); [discriminate | auto].
Qed.

(** Creation is refused by the page only, never by the registry. *)
Lemma createRemoteRenderer_throws (env : R.Allocation) (spaceUserId message : string)
    (m m' : M.t) :
  M.createRemoteRenderer env spaceUserId m = (Throw message, m') →
  R.context2d env = false ∨ R.canvasTextureCreated env = false.
Proof.
  unfold M.createRemoteRenderer.
  destruct (M.renderers m !! spaceUserId); [discriminate |].
  destruct (R.new env ("remote_video_" ++ spaceUserId)) as [r | e] eqn:Hnew;
    [discriminate |].
  intros _. eapply new_throws. exact Hnew.
Qed.

(** A stream with a video track puts a live instance in video mode; the
    registry is not consulted. *)
Lemma attach_stream (m : M.t) (k : nat) (r : R.t) (stream : R.MediaStream) :
  M.store m !! k = Some r → R.destroyed r = false →
  R.getVideoTracks stream ≠ [] →
  M.videoActiveAt (M.onInstance k (R.setStream (Some stream)) m) k = true.
Proof.
  intros Hk Hlive Htracks.
  unfold M.videoActiveAt, M.onInstance. cbn [M.store M.set_store].
  rewrite list_lookup_alter_eq, Hk. cbn [fmap option_fmap option_map].
  unfold R.setStream, R.isVideoActive. rewrite Hlive.
  destruct stream as [[| track tracks]]; [contradiction | reflexivity].
Qed.

(** Creating a remote instance under a new id, when the page grants the
    allocations. *)
Lemma createRemoteRenderer_new (m : M.t) (env : R.Allocation) (spaceUserId : string) :
  M.renderers m !! spaceUserId = None →
  R.context2d env = true → R.canvasTextureCreated env = true →
  M.createRemoteRenderer env spaceUserId m
  = (Ok (length (M.store m)),
     {| M.store := M.store m ++ [fresh ("remote_video_" ++ spaceUserId)];
        M.renderers := <[spaceUserId := length (M.store m)]> (M.renderers m);
        M.localRenderer := M.localRenderer m;
        M.destroyed := M.destroyed m;
        M.console :=
          M.console m
          ++ if (8 <=? size (M.renderers m))%nat
             then ["Maximum concurrent video avatars (8) reached"]
             else [] |}).
Proof.
  intros Hget Hctx Htex. unfold M.createRemoteRenderer.
  rewrite Hget, new_ok by assumption.
  change M.MAX_CONCURRENT_VIDEO with 8%nat.
  destruct (8 <=? size (M.renderers m))%nat; cbn; [reflexivity |].
  rewrite app_nil_r. reflexivity.
Qed.

(** C6.  The cap is advisory.  In every registry state, if the page
    grants the two allocations of the constructor, creating a remote
    instance succeeds.  For a new id the instance is a fresh one, it is
    stored and registered under the id, and the only trace of the cap is
    the warning written when 8 or more remote instances are already
    registered, which is the case whenever more than 8 instances are
    video-active.  Attaching a stream with a video track to a live
    instance makes it video-active whatever the count is. *)
Theorem C6_cap_is_advisory (m : M.t) (env : R.Allocation) (spaceUserId : string)
    (Hctx : R.context2d env = true)
    (Htex : R.canvasTextureCreated env = true) :
  ∃ (l : nat) (m' : M.t),
    M.createRemoteRenderer env spaceUserId m = (Ok l, m')
    ∧ M.renderers m' !! spaceUserId = Some l
    ∧ (M.renderers m !! spaceUserId = None →
       l = length (M.store m)
       ∧ M.store m' = (M.store m ++ [fresh ("remote_video_" ++ spaceUserId)])%list
       ∧ M.store m' !! l = Some (fresh ("remote_video_" ++ spaceUserId))
       ∧ M.renderers m' = <[spaceUserId := l]> (M.renderers m)
       ∧ M.localRenderer m' = M.localRenderer m
       ∧ M.destroyed m' = M.destroyed m
       ∧ M.console m'
         = (M.console m
            ++ if (8 <=? size (M.renderers m))%nat
               then ["Maximum concurrent video avatars (8) reached"]
               else [])%list
       ∧ ((8 < M.getActiveVideoCount m)%nat →
          M.console m'
          = (M.console m ++ ["Maximum concurrent video avatars (8) reached"])%list))
    ∧ (∀ (k : nat) (r : R.t) (stream : R.MediaStream),
         M.store m' !! k = Some r → R.destroyed r = false →
         R.getVideoTracks stream ≠ [] →
         M.videoActiveAt (M.onInstance k (R.setStream (Some stream)) m') k = true).
Proof.
  destruct (M.renderers m !! spaceUserId) as [existing |] eqn:Hget.
  - exists existing, m. unfold M.createRemoteRenderer. rewrite Hget.
    split; [reflexivity |]. split; [reflexivity |].
    split; [discriminate |].
    intros k r stream. apply attach_stream.
  - rewrite createRemoteRenderer_new by assumption.
    eexists _, _. split; [reflexivity |].
    split; [apply lookup_insert_eq |].
    split; [| intros k r stream; apply attach_stream].
    cbn [M.store M.renderers M.localRenderer M.destroyed M.console].
    intros _. split; [reflexivity |]. split; [reflexivity |].
    split.
    { apply list_lookup_middle. reflexivity. }
    split; [reflexivity |]. split; [reflexivity |]. split; [reflexivity |].
    split; [reflexivity |].
    intros Hover. pose proof (activeVideoCount_le m) as Hle.
    destruct (8 <=? size (M.renderers m))%nat eqn:Hcap; [reflexivity |].
    apply Nat.leb_gt in Hcap. lia.
Qed.

End Registry.

(** With the local player and eight peers on camera (9 video-active
    instances), a ninth peer still gets its instance; the warning is the
    only trace of the cap. *)
Lemma C6_cap_is_advisory_witness :
  R.context2d granted = true
  ∧ R.canvasTextureCreated granted = true
  ∧ M.getActiveVideoCount crowded = 9%nat
  ∧ M.canAddVideoStream crowded = false
  ∧ ∃ (l : nat) (m' : M.t),
      M.createRemoteRenderer granted "peer9" crowded = (Ok l, m')
      ∧ M.renderers m' !! "peer9" = Some l
      ∧ M.console m'
        = (M.console crowded ++ ["Maximum concurrent video avatars (8) reached"])%list.
Proof.
  split; [reflexivity |]. split; [reflexivity |].
  assert (Hcount : M.getActiveVideoCount crowded = 9%nat)
    by (vm_compute; reflexivity).
  split; [exact Hcount |]. split; [vm_compute; reflexivity |].
  destruct (C6_cap_is_advisory crowded granted "peer9")
    as (l & m' & Hcreate & Hget & Hnew & _); [reflexivity | reflexivity |].
  exists l, m'. split; [exact Hcreate |]. split; [exact Hget |].
  destruct Hnew as (_ & _ & _ & _ & _ & _ & _ & Hwarn);
    [vm_compute; reflexivity |].
  apply Hwarn. rewrite Hcount. lia.
Defined.

(** ** Get-or-create *)

Lemma createRemoteRenderer_registers (env : R.Allocation) (spaceUserId : string)
    (m m1 : M.t) (l : nat) :
  M.createRemoteRenderer env spaceUserId m = (Ok l, m1) →
  M.renderers m1 !! spaceUserId = Some l
  ∧ (is_Some (M.renderers m !! spaceUserId) → m1 = m)
  ∧ (M.renderers m !! spaceUserId = None →
     l = length (M.store m)
     ∧ length (M.store m1) = S (length (M.store m))
     ∧ M.renderers m1 = <[spaceUserId := l]> (M.renderers m)).
Proof.
  unfold M.createRemoteRenderer. intros H.
  destruct (M.renderers m !! spaceUserId) as [existing |] eqn:Hget.
  - injection H as <- <-. split; [exact Hget |].
    split; [reflexivity | discriminate].
  - destruct (R.new env ("remote_video_" ++ spaceUserId)) as [r | e];
      [| discriminate H].
    destruct (M.MAX_CONCURRENT_VIDEO <=? size (M.renderers m))%nat;
      cbn [M.warn M.store M.renderers M.localRenderer M.destroyed M.console] in H;
      injection H as <- <-; cbn [M.renderers M.store];
      rewrite length_app; cbn [length];
      (split; [apply lookup_insert_eq |]);
      (split; [intros [x Hx]; discriminate Hx |]);
      intros _; repeat split; try reflexivity; lia.
Qed.

(** C9.  Get-or-create is idempotent.  If [getOrCreateRenderer(id)]
    returned an instance, a second call (and [createRemoteRenderer(id)]
    too) returns the same reference and leaves the registry and the store
    of instances as they are; the first call added one instance if the id
    was new and none otherwise.  Likewise a second [createLocalRenderer()]
    returns the existing local instance.  The registry has one slot for
    the local instance and its map has one instance per id. *)
Theorem C9_get_or_create_is_idempotent
    (m m1 m2 : M.t) (env env' : R.Allocation) (spaceUserId : string) (l k : nat)
    (Hremote : M.getOrCreateRenderer env spaceUserId m = (Ok l, m1))
    (Hlocal : M.createLocalRenderer env m = (Ok k, m2)) :
  M.getOrCreateRenderer env' spaceUserId m1 = (Ok l, m1)
  ∧ M.createRemoteRenderer env' spaceUserId m1 = (Ok l, m1)
  ∧ M.getRenderer spaceUserId m1 = Some l
  ∧ (is_Some (M.renderers m !! spaceUserId) → m1 = m)
  ∧ (M.renderers m !! spaceUserId = None →
     length (M.store m1) = S (length (M.store m))
     ∧ size (M.renderers m1) = S (size (M.renderers m)))
  ∧ M.createLocalRenderer env' m2 = (Ok k, m2)
  ∧ M.getLocalRenderer m2 = Some k
  ∧ (is_Some (M.localRenderer m) → m2 = m)
  ∧ (M.localRenderer m = None →
     length (M.store m2) = S (length (M.store m))
     ∧ M.renderers m2 = M.renderers m).
Proof.
  assert (Hcreate : M.createRemoteRenderer env spaceUserId m = (Ok l, m1)).
  { unfold M.getOrCreateRenderer in Hremote.
    destruct (M.renderers m !! spaceUserId) eqn:E; [| exact Hremote].
    unfold M.createRemoteRenderer. rewrite E. exact Hremote. }
  destruct (createRemoteRenderer_registers _ _ _ _ _ Hcreate)
    as (Hget & Hsame & Hnew).
  split; [unfold M.getOrCreateRenderer; rewrite Hget; reflexivity |].
  split; [unfold M.createRemoteRenderer; rewrite Hget; reflexivity |].
  split; [exact Hget |]. split; [exact Hsame |].
  split.
  { intros Hnone. destruct (Hnew Hnone) as (_ & Hlen & ->).
    split; [exact Hlen | apply map_size_insert_None; exact Hnone]. }
  unfold M.createLocalRenderer in Hlocal. unfold M.getLocalRenderer.
  destruct (M.localRenderer m) as [existing |] eqn:Hloc.
  - injection Hlocal as <- <-. unfold M.createLocalRenderer. rewrite Hloc.
    repeat split; try reflexivity. discriminate.
  - destruct (R.new env "local_video_avatar") as [r | e]; [| discriminate Hlocal].
    injection Hlocal as <- <-. unfold M.createLocalRenderer.
    cbn [M.localRenderer M.store M.renderers].
    split; [reflexivity |]. split; [reflexivity |].
    split; [intros [x Hx]; discriminate Hx |].
    intros _. rewrite length_app. cbn [length]. split; [lia | reflexivity].
Qed.

(** A ninth peer joins a crowded room, then is looked up again. *)
Lemma C9_get_or_create_is_idempotent_witness :
  M.getOrCreateRenderer granted "peer9" crowded = (Ok 9%nat, ninth)
  ∧ M.createLocalRenderer granted crowded = (Ok 0%nat, crowded)
  ∧ M.getOrCreateRenderer granted "peer9" ninth = (Ok 9%nat, ninth)
  ∧ M.createLocalRenderer granted crowded = (Ok 0%nat, crowded)
  ∧ length (M.store ninth) = S (length (M.store crowded)).
Proof.
  assert (H1 : M.getOrCreateRenderer granted "peer9" crowded = (Ok 9%nat, ninth))
    by (vm_compute; reflexivity).
  assert (H2 : M.createLocalRenderer granted crowded = (Ok 0%nat, crowded))
    by (vm_compute; reflexivity).
  split; [exact H1 |]. split; [exact H2 |].
  destruct (C9_get_or_create_is_idempotent
              crowded ninth crowded granted granted "peer9" 9%nat 0%nat H1 H2)
    as (Hagain & _ & _ & _ & Hnew & Hlocal & _).
  split; [exact Hagain |]. split; [exact Hlocal |].
  apply Hnew. vm_compute. reflexivity.
Defined.

(** ** References stay valid and distinct *)

(** A sweep of method calls over the registered instances changes the
    instances only. *)
Lemma forEach_onInstance (f : R.t → R.t) (mp : gmap string nat) (m0 : M.t) :
  M.renderers (map_fold (λ _ l m, M.onInstance l f m) m0 mp) = M.renderers m0
  ∧ M.localRenderer (map_fold (λ _ l m, M.onInstance l f m) m0 mp)
    = M.localRenderer m0
  ∧ length (M.store (map_fold (λ _ l m, M.onInstance l f m) m0 mp))
    = length (M.store m0).
Proof.
  apply (map_fold_weak_ind
           (λ m (_ : gmap string nat),
              M.renderers m = M.renderers m0
              ∧ M.localRenderer m = M.localRenderer m0
              ∧ length (M.store m) = length (M.store m0))).
  - repeat split.
  - intros id l mp' m _ (Hr & Hl & Hs). unfold M.onInstance.
    cbn [M.set_store M.renderers M.localRenderer M.store].
    rewrite length_alter. repeat split; assumption.
Qed.

Lemma registered_same (m m' : M.t) :
  M.renderers m' = M.renderers m → M.localRenderer m' = M.localRenderer m →
  length (M.store m') = length (M.store m) →
  registered m → registered m'.
Proof.
  intros Hr Hl Hs [H1 H2 H3 H4].
  split; rewrite ?Hr, ?Hl, ?Hs; assumption.
Qed.

Lemma registered_createLocalRenderer env (m : M.t) :
  registered m → registered (snd (M.createLocalRenderer env m)).
Proof.
  intros Hm. pose proof Hm as [H1 H2 H3 H4]. unfold M.createLocalRenderer.
  destruct (M.localRenderer m) as [l |] eqn:Hl; [exact Hm |].
  destruct (R.new env "local_video_avatar") as [r | e]; [| exact Hm].
  cbn [snd]. split; cbn [M.localRenderer M.renderers M.store];
    rewrite ?length_app; cbn [length].
  - intros l [= <-]. lia.
  - intros id l Hid. apply H2 in Hid. lia.
  - exact H3.
  - intros id l Hid [= E]. apply H2 in Hid. lia.
Qed.

Lemma registered_createRemoteRenderer env spaceUserId (m : M.t) :
  registered m → registered (snd (M.createRemoteRenderer env spaceUserId m)).
Proof.
  intros Hm. pose proof Hm as [H1 H2 H3 H4]. unfold M.createRemoteRenderer.
  destruct (M.renderers m !! spaceUserId) as [existing |] eqn:Hget; [exact Hm |].
  assert (Hw : registered
                 (if (M.MAX_CONCURRENT_VIDEO <=? size (M.renderers m))%nat
                  then M.warn "Maximum concurrent video avatars (8) reached" m
                  else m)).
  { destruct (M.MAX_CONCURRENT_VIDEO <=? size (M.renderers m))%nat; [| exact Hm].
    eapply registered_same; [| | | exact Hm]; reflexivity. }
  assert (Hsame : M.renderers
                    (if (M.MAX_CONCURRENT_VIDEO <=? size (M.renderers m))%nat
                     then M.warn "Maximum concurrent video avatars (8) reached" m
                     else m) = M.renderers m).
  { destruct (M.MAX_CONCURRENT_VIDEO <=? size (M.renderers m))%nat; reflexivity. }
  revert Hw Hsame.
  generalize (if (M.MAX_CONCURRENT_VIDEO <=? size (M.renderers m))%nat
              then M.warn "Maximum concurrent video avatars (8) reached" m
              else m).
  intros mw [W1 W2 W3 W4] Hsame. cbv zeta.
  destruct (R.new env ("remote_video_" ++ spaceUserId)) as [r | e];
    [| split; assumption].
  cbn [snd]. split; cbn [M.localRenderer M.renderers M.store];
    rewrite ?length_app; cbn [length].
  - intros l Hl. apply W1 in Hl. lia.
  - intros id l Hid. apply lookup_insert_Some in Hid.
    destruct Hid as [[_ <-] | [_ Hid]]; [lia |]. apply W2 in Hid. lia.
  - intros id1 id2 l Hid1 Hid2.
    apply lookup_insert_Some in Hid1, Hid2.
    destruct Hid1 as [[<- <-] | [Hne1 Hid1]], Hid2 as [[<- E] | [Hne2 Hid2]].
    + reflexivity.
    + apply W2 in Hid2. lia.
    + apply W2 in Hid1. lia.
    + eapply W3; eassumption.
  - intros id l Hid Hl. apply lookup_insert_Some in Hid.
    destruct Hid as [[_ <-] | [_ Hid]].
    + apply W1 in Hl. lia.
    + exact (W4 _ _ Hid Hl).
Qed.

Lemma registered_removeRenderer textureExists spaceUserId (m : M.t) :
  registered m → registered (M.removeRenderer textureExists spaceUserId m).
Proof.
  intros Hm. pose proof Hm as [H1 H2 H3 H4]. unfold M.removeRenderer.
  destruct (M.renderers m !! spaceUserId) as [l0 |]; [| exact Hm].
  unfold M.onInstance.
  split; cbn [M.localRenderer M.renderers M.store M.set_store];
    rewrite ?length_alter.
  - exact H1.
  - intros id l Hid. apply lookup_delete_Some in Hid. apply (H2 id). tauto.
  - intros id1 id2 l Hid1 Hid2.
    apply lookup_delete_Some in Hid1, Hid2. apply (H3 id1 id2 l); tauto.
  - intros id l Hid. apply lookup_delete_Some in Hid. apply (H4 id). tauto.
Qed.

Lemma destroy_clears textureExists (m : M.t) :
  M.destroyed m = false →
  M.renderers (M.destroy textureExists m) = ∅
  ∧ M.localRenderer (M.destroy textureExists m) = None.
Proof.
  intros Hd. unfold M.destroy. rewrite Hd. cbv zeta.
  cbn [M.renderers M.localRenderer]. split; [reflexivity |].
  match goal with
  | |- M.localRenderer (map_fold (λ _ l m, M.onInstance l ?f m) ?m0 ?mp) = _ =>
      destruct (forEach_onInstance f mp m0) as (_ & -> & _)
  end.
  reflexivity.
Qed.

(** In every reachable registry the references point into the store, two
    ids never share an instance, and the local instance is not in the
    remote map. *)
Lemma reachable_registered (m : M.t) : reachable m → registered m.
Proof.
  induction 1 as [| env m _ IH | env id m _ IH | env id m _ IH | time m _ IH
                  | ex id m _ IH | ex m _ IH | l f m _ IH].
  - split; cbn; intros; try discriminate.
    all: try match goal with H : _ !! _ = Some _ |- _ =>
               rewrite lookup_empty in H; discriminate H end.
  - apply registered_createLocalRenderer, IH.
  - apply registered_createRemoteRenderer, IH.
  - unfold M.getOrCreateRenderer.
    destruct (M.renderers m !! id); [exact IH |].
    apply registered_createRemoteRenderer, IH.
  - unfold M.update. destruct (M.destroyed m); [exact IH |].
    set (m1 := match M.localRenderer m with
               | Some l => M.onInstance l (R.update time) m
               | None => m
               end).
    assert (H1 : registered m1).
    { subst m1. destruct (M.localRenderer m); [| exact IH].
      eapply registered_same; [| | | exact IH];
        [reflexivity | reflexivity | apply length_alter]. }
    destruct (forEach_onInstance (R.update time) (M.renderers m1) m1)
      as (Hr & Hl & Hs).
    eapply registered_same; eassumption.
  - apply registered_removeRenderer, IH.
  - destruct (M.destroyed m) eqn:Hd.
    + unfold M.destroy. rewrite Hd. exact IH.
    + destruct (destroy_clears ex m Hd) as [Hr Hl].
      split; rewrite ?Hr, ?Hl; intros; try discriminate.
      all: try match goal with H : _ !! _ = Some _ |- _ =>
                 rewrite lookup_empty in H; discriminate H end.
  - eapply registered_same; [| | | exact IH];
      [reflexivity | reflexivity | apply length_alter].
Qed.

(** * Further properties of the renderer instance *)

(** ** What every event preserves *)

Local Ltac crush_sound :=
  repeat match goal with
         | |- context [if ?b then _ else _] => destruct b eqn:?
         | |- context [match ?o with Some _ => _ | None => _ end] =>
             destruct o eqn:?
         end;
  split; cbn in *; intros; repeat split; intuition congruence.

Lemma sound_fresh (key : string) : sound key (fresh key).
Proof. split; cbn; intros; repeat split; try congruence. Qed.

Lemma sound_setStream key stream (r : R.t) :
  sound key r → sound key (R.setStream stream r).
Proof.
  intros [H1 H2 H3 H4]. destruct r. cbn in *.
  unfold R.setStream, R.drawMaskToCanvas, R.drawPlaceholder, R.refreshTexture,
    R.draw, R.set_isActive, R.set_srcObject, R.set_videoElement, R.set_canvas,
    R.set_canvasTexture.
  cbn. crush_sound.
Qed.

Lemma sound_setMaskImage key imageUrl (r : R.t) :
  sound key r → sound key (fst (R.setMaskImage imageUrl r)).
Proof.
  intros [H1 H2 H3 H4]. destruct r. cbn in *.
  unfold R.setMaskImage, R.drawPlaceholder, R.refreshTexture,
    R.draw, R.set_currentMaskImage, R.set_maskLoading, R.set_canvas,
    R.set_canvasTexture.
  cbn. crush_sound.
Qed.

Lemma sound_img_onload key img (r : R.t) :
  sound key r → sound key (R.img_onload img r).
Proof.
  intros [H1 H2 H3 H4]. destruct r. cbn in *.
  unfold R.img_onload, R.drawMaskToCanvas, R.drawPlaceholder, R.refreshTexture,
    R.draw, R.set_currentMaskImage, R.set_maskLoading, R.set_canvas,
    R.set_canvasTexture.
  cbn. crush_sound.
Qed.

Lemma sound_img_onerror key url (r : R.t) :
  sound key r → sound key (fst (R.img_onerror url r)).
Proof.
  intros [H1 H2 H3 H4]. destruct r. cbn in *.
  unfold R.img_onerror, R.drawPlaceholder, R.refreshTexture,
    R.draw, R.set_maskLoading, R.set_canvas, R.set_canvasTexture.
  cbn. crush_sound.
Qed.

Lemma sound_update key time (r : R.t) :
  sound key r → sound key (R.update time r).
Proof.
  intros [H1 H2 H3 H4]. destruct r. cbn in *.
  unfold R.update, R.drawVideoFrame, R.refreshTexture,
    R.draw, R.set_lastFrameTime, R.set_canvas, R.set_canvasTexture.
  cbn. crush_sound.
Qed.

Lemma sound_destroy key textureExists (r : R.t) :
  sound key r → sound key (R.destroy textureExists r).
Proof.
  intros [H1 H2 H3 H4]. destruct r. cbn in *.
  unfold R.destroy, R.set_destroyed, R.set_srcObject, R.set_videoElement,
    R.set_isActive, R.set_currentMaskImage, R.set_canvasTexture.
  cbn. crush_sound.
Qed.

Lemma sound_videoReports key w h (r : R.t) :
  sound key r → sound key (R.videoReports w h r).
Proof. intros [H1 H2 H3 H4]. split; cbn; assumption. Qed.

Lemma sound_fire key (e : R.Event) (p q : R.Page) :
  R.fire e p = Some q → sound key (R.instance p) → sound key (R.instance q).
Proof.
  intros Hf Hs. destruct e; cbn in Hf.
  - injection Hf as <-. apply sound_setStream, Hs.
  - pose proof (sound_setMaskImage key imageUrl _ Hs) as Hs'.
    destruct (R.setMaskImage imageUrl (R.instance p)) as [r started].
    injection Hf as <-. exact Hs'.
  - injection Hf as <-. apply sound_update, Hs.
  - injection Hf as <-. apply sound_destroy, Hs.
  - injection Hf as <-. apply sound_videoReports, Hs.
  - injection Hf as <-. exact Hs.
  - destruct (R.completeLoad url (R.loading p)); [| discriminate Hf].
    injection Hf as <-. apply sound_img_onload, Hs.
  - destruct (R.completeLoad url (R.loading p)); [| discriminate Hf].
    injection Hf as <-. exact (sound_img_onerror key url _ Hs).
Qed.

Lemma sound_fireAll key (es : list R.Event) (p q : R.Page) :
  R.fireAll es p = Some q → sound key (R.instance p) → sound key (R.instance q).
Proof.
  revert p. induction es as [| e es IH]; intros p Hf Hs.
  - injection Hf as <-. exact Hs.
  - cbn [R.fireAll] in Hf. destruct (R.fire e p) as [p' |] eqn:E;
      [| discriminate Hf].
    eapply IH; [eassumption |]. eapply sound_fire; eassumption.
Qed.

(** ** Invariants of an instance *)

Local Ltac grows :=
  repeat match goal with
         | |- context [if ?b then _ else _] => destruct b eqn:?
         | |- context [match ?o with Some _ => _ | None => _ end] =>
             destruct o eqn:?
         end;
  cbn; eexists; first [reflexivity | symmetry; apply app_nil_r].

(** Every call and handler only adds to the calls made on the canvas. *)
Lemma fire_canvas_grows (e : R.Event) (p q : R.Page) :
  R.fire e p = Some q →
  ∃ ops, R.canvas (R.instance q) = (R.canvas (R.instance p) ++ ops)%list.
Proof.
  intros Hf. destruct p as [r loading console]. destruct r.
  destruct e; cbn in Hf.
  - injection Hf as <-.
    unfold R.setStream, R.drawMaskToCanvas, R.drawPlaceholder,
      R.refreshTexture. cbn. grows.
  - unfold R.setMaskImage, R.drawPlaceholder, R.refreshTexture in Hf.
    cbn in Hf.
    repeat match type of Hf with
           | context [if ?b then _ else _] => destruct b eqn:?
           end; cbn in Hf; injection Hf as <-; cbn;
      eexists; first [reflexivity | symmetry; apply app_nil_r].
  - injection Hf as <-.
    unfold R.update, R.drawVideoFrame, R.refreshTexture. cbn. grows.
  - injection Hf as <-. unfold R.destroy. cbn. grows.
  - injection Hf as <-. cbn. exists []. symmetry. apply app_nil_r.
  - injection Hf as <-. cbn. exists []. symmetry. apply app_nil_r.
  - destruct (R.completeLoad url loading); [| discriminate Hf].
    injection Hf as <-.
    unfold R.img_onload, R.drawMaskToCanvas, R.drawPlaceholder,
      R.refreshTexture. cbn. grows.
  - destruct (R.completeLoad url loading); [| discriminate Hf].
    unfold R.img_onerror, R.drawPlaceholder, R.refreshTexture in Hf.
    cbn in Hf.
    repeat match type of Hf with
           | context [if ?b then _ else _] => destruct b eqn:?
           end; cbn in Hf; injection Hf as <-; cbn;
      eexists; first [reflexivity | symmetry; apply app_nil_r].
Qed.

Lemma fireAll_canvas_grows (es : list R.Event) (p q : R.Page) :
  R.fireAll es p = Some q →
  ∃ ops, R.canvas (R.instance q) = (R.canvas (R.instance p) ++ ops)%list.
Proof.
  revert p. induction es as [| e es IH]; intros p Hf.
  - injection Hf as <-. exists []. symmetry. apply app_nil_r.
  - cbn [R.fireAll] in Hf. destruct (R.fire e p) as [p' |] eqn:E;
      [| discriminate Hf].
    destruct (fire_canvas_grows _ _ _ E) as [ops1 H1].
    destruct (IH _ Hf) as [ops2 H2].
    exists (ops1 ++ ops2)%list. rewrite H2, H1, app_assoc. reflexivity.
Qed.

(** X1.  Whatever calls and handlers have run on an instance since its
    construction, the first thing drawn on its canvas is the placeholder
    of the constructor, and as long as the instance is not destroyed its
    texture shows exactly what was drawn on its canvas. *)
Theorem X1_live_texture_shows_canvas
    (key : string) (es : list R.Event) (p : R.Page)
    (Hrun : R.fireAll es (freshPage key) = Some p) :
  (∃ later, R.canvas (R.instance p) = (R.placeholderOps ++ later)%list)
  ∧ (R.destroyed (R.instance p) = false →
     R.shown (R.canvasTexture (R.instance p)) = R.canvas (R.instance p)).
Proof.
  split; [exact (fireAll_canvas_grows _ _ _ Hrun) |].
  apply (sound_texture key).
  eapply sound_fireAll; [exact Hrun |]. apply sound_fresh.
Qed.

Lemma X1_live_texture_shows_canvas_witness :
  R.fireAll session (freshPage "local_video_avatar") = Some afterSession
  ∧ R.destroyed (R.instance afterSession) = false
  ∧ R.shown (R.canvasTexture (R.instance afterSession))
    = R.canvas (R.instance afterSession).
Proof.
  assert (Hrun : R.fireAll session (freshPage "local_video_avatar")
                 = Some afterSession) by (vm_compute; reflexivity).
  assert (Hlive : R.destroyed (R.instance afterSession) = false)
    by (vm_compute; reflexivity).
  split; [exact Hrun |]. split; [exact Hlive |].
  exact (proj2 (X1_live_texture_shows_canvas _ _ _ Hrun) Hlive).
Defined.

(** X2.  Whatever has happened to an instance since its construction,
    [isVideoActive()] answers true exactly when the video element holds a
    stream that has a video track. *)
Theorem X2_video_active_iff_stream_attached
    (key : string) (es : list R.Event) (p : R.Page)
    (Hrun : R.fireAll es (freshPage key) = Some p) :
  R.isVideoActive (R.instance p) = true
  ↔ ∃ stream, R.srcObject (R.videoElement (R.instance p)) = Some stream
              ∧ R.getVideoTracks stream ≠ [].
Proof.
  assert (Hs : sound key (R.instance p)).
  { eapply sound_fireAll; [exact Hrun |]. apply sound_fresh. }
  unfold R.isVideoActive. rewrite (sound_mode key _ Hs).
  destruct (R.srcObject (R.videoElement (R.instance p))) as [s |]; cbn.
  - destruct s as [[| track tracks]]; cbn.
    + split; [discriminate |]. intros (s & [= <-] & H). contradiction.
    + split; [| reflexivity]. intros _. eexists. split; [reflexivity | discriminate].
  - split; [discriminate |]. intros (s & H & _). discriminate H.
Qed.

Lemma X2_video_active_iff_stream_attached_witness :
  R.fireAll session (freshPage "local_video_avatar") = Some afterSession
  ∧ R.isVideoActive (R.instance afterSession) = false
  ∧ ¬ ∃ stream, R.srcObject (R.videoElement (R.instance afterSession)) = Some stream
                ∧ R.getVideoTracks stream ≠ [].
Proof.
  assert (Hrun : R.fireAll session (freshPage "local_video_avatar")
                 = Some afterSession) by (vm_compute; reflexivity).
  split; [exact Hrun |]. split; [vm_compute; reflexivity |].
  intros H. apply (X2_video_active_iff_stream_attached _ _ _ Hrun) in H.
  vm_compute in H. discriminate H.
Defined.

(** X3.  Destruction is terminal.  Once an instance is destroyed it is
    not video-active, caches no mask and holds no stream, and no later
    call or handler makes it live again or changes any of the three. *)
Theorem X3_destroyed_is_terminal
    (key : string) (es later : list R.Event) (p q : R.Page)
    (Hrun : R.fireAll es (freshPage key) = Some p)
    (Hdead : R.destroyed (R.instance p) = true)
    (Hlater : R.fireAll later p = Some q) :
  R.destroyed (R.instance q) = true
  ∧ R.isVideoActive (R.instance q) = false
  ∧ R.currentMaskImage (R.instance q) = None
  ∧ R.srcObject (R.videoElement (R.instance q)) = None
  ∧ R.shown (R.canvasTexture (R.instance q))
    = R.shown (R.canvasTexture (R.instance p)).
Proof.
  assert (Hq : R.destroyed (R.instance q) = true)
    by (eapply fireAll_destroyed; eassumption).
  assert (Hs : sound key (R.instance q)).
  { eapply sound_fireAll; [exact Hlater |].
    eapply sound_fireAll; [exact Hrun |]. apply sound_fresh. }
  destruct (sound_destroyed key _ Hs Hq) as (Ha & Hm & Hsrc).
  split; [exact Hq |]. split; [exact Ha |]. split; [exact Hm |].
  split; [exact Hsrc |].
  clear Hrun Hs Ha Hm Hsrc Hq. revert p Hdead Hlater.
  induction later as [| e later IH]; intros p Hdead Hlater.
  - injection Hlater as <-. reflexivity.
  - cbn [R.fireAll] in Hlater.
    destruct (R.fire e p) as [p' |] eqn:E; [| discriminate Hlater].
    rewrite (IH p' (fire_destroyed _ _ _ E Hdead) Hlater).
    destruct (destroyed_frozen _ Hdead) as (Hs & Hm & Hu & Hk & Hl).
    destruct e; cbn in E.
    + injection E as <-. cbn. rewrite Hs. reflexivity.
    + rewrite Hm in E. injection E as <-. reflexivity.
    + injection E as <-. cbn. rewrite Hu. reflexivity.
    + injection E as <-. cbn. rewrite Hk. reflexivity.
    + injection E as <-. reflexivity.
    + injection E as <-. reflexivity.
    + destruct (R.completeLoad url (R.loading p)); [| discriminate E].
      injection E as <-. cbn. rewrite Hl. reflexivity.
    + destruct (R.completeLoad url (R.loading p)); [| discriminate E].
      injection E as <-. cbn.
      destruct (negb (R.isActive (R.instance p))); [| reflexivity].
      unfold R.drawPlaceholder, R.refreshTexture. cbn. rewrite Hdead.
      reflexivity.
Qed.

Lemma X3_destroyed_is_terminal_witness :
  R.fireAll closedSession (freshPage "local_video_avatar") = Some afterClosedSession
  ∧ R.destroyed (R.instance afterClosedSession) = true
  ∧ ∃ q : R.Page,
      R.fireAll [R.call_setStream (Some camera); R.call_update 2000]
                afterClosedSession = Some q
      ∧ R.destroyed (R.instance q) = true
      ∧ R.isVideoActive (R.instance q) = false.
Proof.
  assert (Hrun : R.fireAll closedSession (freshPage "local_video_avatar")
                 = Some afterClosedSession) by (vm_compute; reflexivity).
  assert (Hdead : R.destroyed (R.instance afterClosedSession) = true)
    by (vm_compute; reflexivity).
  split; [exact Hrun |]. split; [exact Hdead |].
  destruct (R.fireAll [R.call_setStream (Some camera); R.call_update 2000]
                      afterClosedSession) as [q |] eqn:Hlater;
    [| vm_compute in Hlater; discriminate Hlater].
  exists q. split; [reflexivity |].
  destruct (X3_destroyed_is_terminal _ _ _ _ _ Hrun Hdead Hlater)
    as (H1 & H2 & _).
  split; [exact H1 | exact H2].
Defined.

(** ** Construction and teardown *)

(** X4.  The constructor throws exactly when the page refuses one of its
    two allocations, the missing 2D context being reported first.
    Otherwise the new instance is live, in no video mode, loading nothing,
    with its clock at 0, and its canvas and its texture hold the
    placeholder and nothing else. *)
Theorem X4_constructor (env : R.Allocation) (key : string) :
  (R.context2d env = false →
   R.new env key = Throw "Failed to get 2d context for video avatar canvas")
  ∧ (R.context2d env = true → R.canvasTextureCreated env = false →
     R.new env key = Throw "Failed to create canvas texture for video avatar")
  ∧ (R.context2d env = true → R.canvasTextureCreated env = true →
     ∃ r, R.new env key = Ok r
          ∧ R.getTextureKey r = key
          ∧ R.canvas r = R.placeholderOps
          ∧ R.shown (R.canvasTexture r) = R.placeholderOps
          ∧ R.isVideoActive r = false ∧ R.isMaskLoading r = false
          ∧ R.currentMaskImage r = None ∧ R.destroyed r = false
          ∧ R.lastFrameTime r = 0%Q).
Proof.
  unfold R.new. split; [intros -> |]; [reflexivity |].
  split; intros -> ->; [reflexivity |].
  eexists. split; [reflexivity |]. repeat split.
Qed.

Lemma X4_constructor_witness :
  R.context2d granted = true ∧ R.canvasTextureCreated granted = true
  ∧ ∃ r, R.new granted "local_video_avatar" = Ok r
         ∧ R.canvas r = R.placeholderOps.
Proof.
  split; [reflexivity |]. split; [reflexivity |].
  destruct (X4_constructor granted "local_video_avatar") as (_ & _ & H).
  destruct (H eq_refl eq_refl) as (r & Hnew & _ & Hcanvas & _).
  exists r. split; [exact Hnew | exact Hcanvas].
Defined.

(** X5.  [destroy()] on a live instance sets the flag, detaches the
    stream, leaves video mode and drops the cached mask; it destroys the
    texture only if the scene still has its key; it leaves the canvas, the
    clock and [maskLoading] as they are.  A second [destroy()], whatever
    the scene then answers, changes nothing. *)
Theorem X5_destroy_once (r : R.t) (textureExists again : bool)
    (Hlive : R.destroyed r = false) :
  R.destroyed (R.destroy textureExists r) = true
  ∧ R.srcObject (R.videoElement (R.destroy textureExists r)) = None
  ∧ R.isVideoActive (R.destroy textureExists r) = false
  ∧ R.currentMaskImage (R.destroy textureExists r) = None
  ∧ R.textureDestroyed (R.canvasTexture (R.destroy textureExists r))
    = (textureExists || R.textureDestroyed (R.canvasTexture r))%bool
  ∧ R.shown (R.canvasTexture (R.destroy textureExists r))
    = R.shown (R.canvasTexture r)
  ∧ R.canvas (R.destroy textureExists r) = R.canvas r
  ∧ R.lastFrameTime (R.destroy textureExists r) = R.lastFrameTime r
  ∧ R.isMaskLoading (R.destroy textureExists r) = R.isMaskLoading r
  ∧ R.destroy again (R.destroy textureExists r) = R.destroy textureExists r.
Proof.
  unfold R.destroy at 1 2 3 4 5 6 7 8 9. rewrite Hlive.
  assert (Hd : R.destroyed (R.destroy textureExists r) = true).
  { unfold R.destroy. rewrite Hlive. destruct textureExists; reflexivity. }
  destruct textureExists; cbn; repeat split;
    unfold R.destroy at 1; rewrite Hd; reflexivity.
Qed.

Lemma X5_destroy_once_witness :
  R.destroyed masked = false
  ∧ R.currentMaskImage masked = Some portrait
  ∧ R.currentMaskImage (R.destroy true masked) = None
  ∧ R.destroy false (R.destroy true masked) = R.destroy true masked.
Proof.
  split; [reflexivity |]. split; [reflexivity |].
  destruct (X5_destroy_once masked true false)
    as (_ & _ & _ & Hmask & _ & _ & _ & _ & _ & Hagain); [reflexivity |].
  split; [exact Hmask | exact Hagain].
Defined.

(** ** Masks while the video plays, and loads that fail *)





(** X8.  [maskLoading] is one flag for all loads.  When a load in flight
    reports, with success on a live instance or with failure on any
    instance, [isMaskLoading()] answers false from then on, whether or not
    other loads are still in flight; the other loads stay in flight. *)
Theorem X8_first_report_clears_maskLoading
    (p : R.Page) (url : string) (w h : Z) (rest : list string)
    (Hflight : R.completeLoad url (R.loading p) = Some rest) :
  (∃ q, R.fire (R.image_failed url) p = Some q
        ∧ R.loading q = rest ∧ R.isMaskLoading (R.instance q) = false)
  ∧ (R.destroyed (R.instance p) = false →
     ∃ q, R.fire (R.image_loaded url w h) p = Some q
          ∧ R.loading q = rest ∧ R.isMaskLoading (R.instance q) = false).
Proof.
  split.
  - cbn [R.fire]. rewrite Hflight. unfold R.img_onerror.
    eexists. split; [reflexivity |]. split; [reflexivity |].
    unfold R.isMaskLoading. cbn [R.instance R.set_maskLoading R.isActive].
    destruct (negb (R.isActive (R.instance p))); [| reflexivity].
    unfold R.drawPlaceholder, R.refreshTexture. cbn.
    destruct (R.destroyed (R.instance p)); reflexivity.
  - intros Hlive. cbn [R.fire]. rewrite Hflight.
    eexists. split; [reflexivity |]. split; [reflexivity |].
    cbn [R.instance].
    exact (proj1 (proj2 (img_onload_live _ _ Hlive))).
Qed.

Lemma X8_first_report_clears_maskLoading_witness :
  R.completeLoad maskUrl [maskUrl; "/resources/masks/avatar-2.svg"]
  = Some ["/resources/masks/avatar-2.svg"]
  ∧ ∃ q, R.fire (R.image_failed maskUrl)
                {| R.instance := R.instance loadingPage;
                   R.loading := [maskUrl; "/resources/masks/avatar-2.svg"];
                   R.console := [] |} = Some q
         ∧ R.loading q = ["/resources/masks/avatar-2.svg"]
         ∧ R.isMaskLoading (R.instance q) = false.
Proof.
  split; [reflexivity |].
  exact (proj1 (X8_first_report_clears_maskLoading
                  {| R.instance := R.instance loadingPage;
                     R.loading := [maskUrl; "/resources/masks/avatar-2.svg"];
                     R.console := [] |}
                  maskUrl 0 0 ["/resources/masks/avatar-2.svg"] eq_refl)).
Defined.

(** ** What [update] leaves alone *)

(** X9.  [update] changes nothing but the clock, the canvas and the
    texture: mode, cached mask, [maskLoading], the destroyed flag, the
    video element and the texture key are as before.  It is the identity
    on an instance that is destroyed or not in video mode, and calling it
    a second time with the same tick changes nothing more. *)
Theorem X9_update_frame (time : Q) (r : R.t) :
  R.isActive (R.update time r) = R.isActive r
  ∧ R.currentMaskImage (R.update time r) = R.currentMaskImage r
  ∧ R.maskLoading (R.update time r) = R.maskLoading r
  ∧ R.destroyed (R.update time r) = R.destroyed r
  ∧ R.videoElement (R.update time r) = R.videoElement r
  ∧ R.textureKey (R.update time r) = R.textureKey r
  ∧ (R.destroyed r = true ∨ R.isActive r = false → R.update time r = r)
  ∧ R.update time (R.update time r) = R.update time r.
Proof.
  assert (Hclosed : ∀ r', R.lastFrameTime r' = time → R.update time r' = r').
  { intros r' E. unfold R.update. rewrite E.
    destruct (R.destroyed r'); [reflexivity |].
    destruct (negb (R.isActive r')); [reflexivity |].
    assert (Hlt : Qlt_bool (time - time) R.frameInterval = true).
    { apply Qlt_bool_true. unfold R.frameInterval. lra. }
    rewrite Hlt. reflexivity. }
  assert (Hfields :
            R.isActive (R.update time r) = R.isActive r
            ∧ R.currentMaskImage (R.update time r) = R.currentMaskImage r
            ∧ R.maskLoading (R.update time r) = R.maskLoading r
            ∧ R.destroyed (R.update time r) = R.destroyed r
            ∧ R.videoElement (R.update time r) = R.videoElement r
            ∧ R.textureKey (R.update time r) = R.textureKey r).
  { unfold R.update, R.drawVideoFrame, R.refreshTexture.
    destruct r as [k c tx v clock a mk ml d]. cbn.
    destruct d; [repeat split |]. destruct a; cbn; [| repeat split].
    destruct (Qlt_bool (time - clock) R.frameInterval); [repeat split |].
    destruct ((R.videoWidth v =? 0)%Z || (R.videoHeight v =? 0)%Z)%bool;
      repeat split. }
  destruct Hfields as (H1 & H2 & H3 & H4 & H5 & H6).
  repeat (split; [assumption |]).
  split.
  - unfold R.update. intros [-> | ->]; [reflexivity |].
    destruct (R.destroyed r); reflexivity.
  - remember (R.update time r) as u eqn:Hu. unfold R.update in Hu.
    destruct (R.destroyed r) eqn:Hd.
    { subst u. unfold R.update. rewrite Hd. reflexivity. }
    destruct (R.isActive r) eqn:Ha; cbn [negb] in Hu.
    2:{ subst u. unfold R.update. rewrite Hd, Ha. reflexivity. }
    destruct (Qlt_bool (time - R.lastFrameTime r) R.frameInterval) eqn:Ht.
    { subst u. unfold R.update. rewrite Hd, Ha, Ht. reflexivity. }
    apply Hclosed. subst u. cbn [R.set_lastFrameTime R.videoElement].
    destruct ((R.videoWidth (R.videoElement r) =? 0)%Z
              || (R.videoHeight (R.videoElement r) =? 0)%Z)%bool;
      [reflexivity |].
    unfold R.drawVideoFrame, R.refreshTexture. cbn. rewrite Hd. reflexivity.
Qed.

Lemma X9_update_frame_witness :
  R.isActive masked = false ∧ R.update 1000 masked = masked.
Proof.
  split; [reflexivity |].
  destruct (X9_update_frame 1000 masked) as (_ & _ & _ & _ & _ & _ & Hid & _).
  apply Hid. right. reflexivity.
Defined.

(** ** Geometry of the two fits *)

Section Geometry.
Local Open Scope Q_scope.

Local Ltac halves :=
  unfold Qdiv; change (/ 2) with (1 # 2); lra.

Lemma Qlt_bool_comp (a a' b b' : Q) :
  a == a' → b == b' → Qlt_bool a b = Qlt_bool a' b'.
Proof. intros Ha Hb. unfold Qlt_bool. rewrite Ha, Hb. reflexivity. Qed.

(** X10.  Both fits are centred.  For a video frame of positive width
    and height the source rectangle of [drawVideoFrame] leaves equal
    margins left and right, and above and below, in the frame; for an
    image of positive width and height the destination rectangle of
    [drawMaskToCanvas] leaves equal margins in the 32x32 canvas.  A square
    frame is taken whole, and a square image fills the whole canvas. *)
Theorem X10_fits_are_centred (video : R.HTMLVideoElement) (img : R.HTMLImageElement)
    (Hvw : (0 < R.videoWidth video)%Z) (Hvh : (0 < R.videoHeight video)%Z)
    (Hiw : (0 < R.width img)%Z) (Hih : (0 < R.height img)%Z) :
  R.rx (R.videoSourceRect video)
  == inject_Z (R.videoWidth video)
     - (R.rx (R.videoSourceRect video) + R.rw (R.videoSourceRect video))
  ∧ R.ry (R.videoSourceRect video)
    == inject_Z (R.videoHeight video)
       - (R.ry (R.videoSourceRect video) + R.rh (R.videoSourceRect video))
  ∧ R.rx (R.maskDestRect img)
    == R.SPRITE_WIDTH - (R.rx (R.maskDestRect img) + R.rw (R.maskDestRect img))
  ∧ R.ry (R.maskDestRect img)
    == R.SPRITE_HEIGHT - (R.ry (R.maskDestRect img) + R.rh (R.maskDestRect img))
  ∧ (R.videoHeight video = R.videoWidth video →
     R.rx (R.videoSourceRect video) == 0 ∧ R.ry (R.videoSourceRect video) == 0
     ∧ R.rw (R.videoSourceRect video) == inject_Z (R.videoWidth video)
     ∧ R.rh (R.videoSourceRect video) == inject_Z (R.videoHeight video))
  ∧ (R.height img = R.width img →
     R.rx (R.maskDestRect img) == 0 ∧ R.ry (R.maskDestRect img) == 0
     ∧ R.rw (R.maskDestRect img) == R.SPRITE_WIDTH
     ∧ R.rh (R.maskDestRect img) == R.SPRITE_HEIGHT).
Proof.
  unfold R.videoSourceRect, R.maskDestRect.
  set (va := inject_Z (R.videoWidth video) / inject_Z (R.videoHeight video)).
  set (ia := inject_Z (R.width img) / inject_Z (R.height img)).
  fold destAspect.
  split.
  { destruct (Qlt_bool destAspect va); cbn [R.rx R.ry R.rw R.rh];
      [set (sw := inject_Z (R.videoHeight video) * destAspect); halves | lra]. }
  split.
  { destruct (Qlt_bool destAspect va); cbn [R.rx R.ry R.rw R.rh];
      [lra | set (sh := inject_Z (R.videoWidth video) / destAspect); halves]. }
  split.
  { destruct (Qlt_bool destAspect ia); cbn [R.rx R.ry R.rw R.rh];
      [lra | set (dw := R.SPRITE_HEIGHT * ia); halves]. }
  split.
  { destruct (Qlt_bool destAspect ia); cbn [R.rx R.ry R.rw R.rh];
      [set (dh := R.SPRITE_WIDTH / ia); halves | lra]. }
  split.
  - intros Hh.
    assert (Hva : va == 1).
    { subst va. rewrite Hh. field. pose proof (inject_Z_pos _ Hvw). lra. }
    rewrite (Qlt_bool_comp destAspect 1 va 1 destAspect_one Hva).
    change (Qlt_bool 1 1) with false. cbn [R.rx R.ry R.rw R.rh].
    rewrite Hh, destAspect_one.
    assert (E : inject_Z (R.videoWidth video) / 1 == inject_Z (R.videoWidth video))
      by field.
    split; [reflexivity |]. split; [rewrite E; halves |].
    split; [reflexivity | exact E].
  - intros Hh.
    assert (Hia : ia == 1).
    { subst ia. rewrite Hh. field. pose proof (inject_Z_pos _ Hiw). lra. }
    rewrite (Qlt_bool_comp destAspect 1 ia 1 destAspect_one Hia).
    change (Qlt_bool 1 1) with false. cbn [R.rx R.ry R.rw R.rh].
    rewrite Hia. unfold R.SPRITE_WIDTH, R.SPRITE_HEIGHT.
    repeat split; reflexivity.
Qed.

(** A 640x480 frame is cropped with equal margins left and right, a
    90x160 image is drawn with equal margins left and right, and a 64x64
    image fills the canvas. *)
Lemma X10_fits_are_centred_witness :
  ((0 < 640)%Z ∧ (0 < 480)%Z ∧ (0 < 90)%Z ∧ (0 < 160)%Z ∧ (0 < 64)%Z)
  ∧ R.rx (R.videoSourceRect
            {| R.srcObject := None; R.videoWidth := 640; R.videoHeight := 480 |})
    == 640 - (R.rx (R.videoSourceRect
                      {| R.srcObject := None; R.videoWidth := 640;
                         R.videoHeight := 480 |})
              + R.rw (R.videoSourceRect
                        {| R.srcObject := None; R.videoWidth := 640;
                           R.videoHeight := 480 |}))
  ∧ R.rx (R.maskDestRect portrait)
    == R.SPRITE_WIDTH
       - (R.rx (R.maskDestRect portrait) + R.rw (R.maskDestRect portrait))
  ∧ R.rw (R.maskDestRect {| R.src := maskUrl; R.width := 64; R.height := 64 |})
    == R.SPRITE_WIDTH
  ∧ R.rh (R.maskDestRect {| R.src := maskUrl; R.width := 64; R.height := 64 |})
    == R.SPRITE_HEIGHT.
Proof.
  split; [repeat split |].
  destruct (X10_fits_are_centred
              {| R.srcObject := None; R.videoWidth := 640; R.videoHeight := 480 |}
              portrait eq_refl eq_refl eq_refl eq_refl)
    as (Hv & _ & Hm & _).
  destruct (X10_fits_are_centred
              {| R.srcObject := None; R.videoWidth := 64; R.videoHeight := 64 |}
              {| R.src := maskUrl; R.width := 64; R.height := 64 |}
              eq_refl eq_refl eq_refl eq_refl)
    as (_ & _ & _ & _ & _ & H).
  destruct (H eq_refl) as (_ & _ & Hw & Hh).
  split; [exact Hv |]. split; [exact Hm |].
  split; [exact Hw | exact Hh].
Defined.

(** X11.  The mask fit depends on the aspect of the image only: an image
    [k] times as large in both directions is drawn into the same
    rectangle.  The video crop scales with the frame: for a frame [k]
    times as large, every coordinate of the source rectangle is [k] times
    as large. *)
Theorem X11_fits_scale (w h k : Z) (url : string) (stream : option R.MediaStream)
    (Hw : (0 < w)%Z) (Hh : (0 < h)%Z) (Hk : (0 < k)%Z) :
  let img := {| R.src := url; R.width := w; R.height := h |} in
  let big := {| R.src := url; R.width := k * w; R.height := k * h |} in
  let frame := {| R.srcObject := stream; R.videoWidth := w; R.videoHeight := h |} in
  let bigFrame :=
    {| R.srcObject := stream; R.videoWidth := k * w; R.videoHeight := k * h |} in
  R.rx (R.maskDestRect big) == R.rx (R.maskDestRect img)
  ∧ R.ry (R.maskDestRect big) == R.ry (R.maskDestRect img)
  ∧ R.rw (R.maskDestRect big) == R.rw (R.maskDestRect img)
  ∧ R.rh (R.maskDestRect big) == R.rh (R.maskDestRect img)
  ∧ R.rx (R.videoSourceRect bigFrame) == inject_Z k * R.rx (R.videoSourceRect frame)
  ∧ R.ry (R.videoSourceRect bigFrame) == inject_Z k * R.ry (R.videoSourceRect frame)
  ∧ R.rw (R.videoSourceRect bigFrame) == inject_Z k * R.rw (R.videoSourceRect frame)
  ∧ R.rh (R.videoSourceRect bigFrame) == inject_Z k * R.rh (R.videoSourceRect frame).
Proof.
  cbv zeta.
  pose proof (inject_Z_pos _ Hw) as Pw. pose proof (inject_Z_pos _ Hh) as Ph.
  pose proof (inject_Z_pos _ Hk) as Pk.
  unfold R.maskDestRect, R.videoSourceRect.
  cbn [R.width R.height R.videoWidth R.videoHeight].
  rewrite !inject_Z_mult.
  assert (Ha : inject_Z k * inject_Z w / (inject_Z k * inject_Z h)
               == inject_Z w / inject_Z h) by (field; lra).
  rewrite (Qlt_bool_comp _ _ _ _ (Qeq_refl (R.SPRITE_WIDTH / R.SPRITE_HEIGHT)) Ha).
  destruct (Qlt_bool (R.SPRITE_WIDTH / R.SPRITE_HEIGHT) (inject_Z w / inject_Z h));
    cbn [R.rx R.ry R.rw R.rh]; unfold R.SPRITE_WIDTH, R.SPRITE_HEIGHT;
    repeat split; try reflexivity; field; lra.
Qed.

Lemma X11_fits_scale_witness :
  (0 < 90)%Z ∧ (0 < 160)%Z ∧ (0 < 4)%Z
  ∧ R.rw (R.maskDestRect {| R.src := maskUrl; R.width := 360; R.height := 640 |})
    == R.rw (R.maskDestRect portrait).
Proof.
  split; [reflexivity |]. split; [reflexivity |]. split; [reflexivity |].
  destruct (X11_fits_scale 90 160 4 maskUrl None eq_refl eq_refl eq_refl)
    as (_ & _ & H & _).
  exact H.
Defined.

End Geometry.

(** * Further properties of the registry *)

(** ** Sweeps over the registered instances *)

Section Sweeps.
Variable f : R.t → R.t.

(** A sweep leaves alone the instances the map does not mention. *)
Lemma sweep_elsewhere (mp : gmap string nat) (m0 : M.t) (l : nat) :
  (∀ id, mp !! id ≠ Some l) →
  M.store (map_fold (λ _ k m, M.onInstance k f m) m0 mp) !! l = M.store m0 !! l.
Proof.
  revert l.
  apply (map_fold_weak_ind
           (λ m (mp : gmap string nat),
              ∀ l, (∀ id, mp !! id ≠ Some l) → M.store m !! l = M.store m0 !! l)).
  - reflexivity.
  - intros i x mp' m Hi IH l Hl. unfold M.onInstance. cbn [M.store M.set_store].
    assert (Hx : x ≠ l).
    { intros ->. apply (Hl i). apply lookup_insert_eq. }
    rewrite list_lookup_alter_ne by exact Hx. apply IH.
    intros id Hid. apply (Hl id).
    rewrite lookup_insert_ne; [exact Hid |]. intros ->. congruence.
Qed.

(** When no two ids share an instance, a sweep calls [f] once on each
    instance the map mentions. *)
Lemma sweep_once (mp : gmap string nat) (m0 : M.t) :
  (∀ id1 id2 l, mp !! id1 = Some l → mp !! id2 = Some l → id1 = id2) →
  ∀ id l, mp !! id = Some l →
  M.store (map_fold (λ _ k m, M.onInstance k f m) m0 mp) !! l
  = f <$> M.store m0 !! l.
Proof.
  pose proof (map_fold_weak_ind
    (λ m (mp : gmap string nat),
       (∀ l, (∀ id, mp !! id ≠ Some l) → M.store m !! l = M.store m0 !! l)
       ∧ ((∀ id1 id2 l, mp !! id1 = Some l → mp !! id2 = Some l → id1 = id2) →
          ∀ id l, mp !! id = Some l → M.store m !! l = f <$> M.store m0 !! l))
    (λ _ k m, M.onInstance k f m) m0) as Hind.
  apply Hind; clear Hind.
  - split; [reflexivity |]. intros _ id l H. rewrite lookup_empty in H.
    discriminate H.
  - intros i x mp' m Hi [IHa IHb]. unfold M.onInstance.
    cbn [M.store M.set_store]. split.
    + intros l Hl.
      assert (Hx : x ≠ l).
      { intros ->. apply (Hl i). apply lookup_insert_eq. }
      rewrite list_lookup_alter_ne by exact Hx. apply IHa.
      intros id Hid. apply (Hl id).
      rewrite lookup_insert_ne; [exact Hid |]. intros ->. congruence.
    + intros Hinj id l Hid.
      assert (Hinj' : ∀ id1 id2 l, mp' !! id1 = Some l → mp' !! id2 = Some l →
                                   id1 = id2).
      { intros id1 id2 k H1 H2. apply (Hinj id1 id2 k).
        - rewrite lookup_insert_ne; [exact H1 |]. intros ->. congruence.
        - rewrite lookup_insert_ne; [exact H2 |]. intros ->. congruence. }
      apply lookup_insert_Some in Hid. destruct Hid as [[<- <-] | [Hne Hid]].
      * rewrite list_lookup_alter_eq. f_equal. apply IHa.
        intros id Hid. assert (id = i); [| congruence].
        apply (Hinj id i x); [| apply lookup_insert_eq].
        rewrite lookup_insert_ne; [exact Hid |]. intros ->. congruence.
      * assert (Hx : x ≠ l).
        { intros ->. apply Hne. apply (Hinj i id l); [apply lookup_insert_eq |].
          rewrite lookup_insert_ne; [exact Hid | exact Hne]. }
        rewrite list_lookup_alter_ne by exact Hx. eapply IHb; eassumption.
Qed.

(** A sweep keeps whatever [f] keeps. *)
Lemma sweep_keeps {A : Type} (g : R.t → A) (mp : gmap string nat) (m0 : M.t) :
  (∀ r, g (f r) = g r) →
  ∀ l, g <$> M.store (map_fold (λ _ k m, M.onInstance k f m) m0 mp) !! l
       = g <$> M.store m0 !! l.
Proof.
  intros Hg.
  apply (map_fold_weak_ind
           (λ m (_ : gmap string nat),
              ∀ l, g <$> M.store m !! l = g <$> M.store m0 !! l)).
  - reflexivity.
  - intros i x mp' m _ IH l. unfold M.onInstance. cbn [M.store M.set_store].
    rewrite list_lookup_alter. destruct (decide (x = l)) as [-> |]; [| apply IH].
    rewrite <- IH. destruct (M.store m !! l); cbn; [| reflexivity].
    rewrite Hg. reflexivity.
Qed.

(** A sweep establishes on every instance it reaches what [f] always
    establishes. *)
Lemma sweep_establishes (Q : R.t → Prop) (mp : gmap string nat) (m0 : M.t) :
  (∀ r, Q (f r)) →
  (∀ l r, M.store m0 !! l = Some r →
          ∃ r', M.store (map_fold (λ _ k m, M.onInstance k f m) m0 mp) !! l
                = Some r'
                ∧ (Q r ∨ (∃ id, mp !! id = Some l) → Q r')).
Proof.
  intros HQ.
  apply (map_fold_weak_ind
           (λ m (mp : gmap string nat),
              ∀ l r, M.store m0 !! l = Some r →
                     ∃ r', M.store m !! l = Some r'
                           ∧ (Q r ∨ (∃ id, mp !! id = Some l) → Q r'))).
  - intros l r Hr. exists r. split; [exact Hr |].
    intros [H | [id H]]; [exact H |]. rewrite lookup_empty in H. discriminate H.
  - intros i x mp' m Hi IH l r Hr. destruct (IH l r Hr) as (r' & Hr' & HQ').
    unfold M.onInstance. cbn [M.store M.set_store].
    rewrite list_lookup_alter. destruct (decide (x = l)) as [-> |].
    + rewrite Hr'. exists (f r'). split; [reflexivity |]. intros _. apply HQ.
    + exists r'. split; [exact Hr' |]. intros [H | [id H]]; [auto |].
      apply HQ'. right. exists id.
      apply lookup_insert_Some in H. destruct H as [[_ <-] | [_ H]];
        [contradiction | exact H].
Qed.

End Sweeps.

(** ** Removing a participant *)

(** X12.  [removeRenderer(id)] does nothing when the id is not
    registered.  Otherwise it destroys the instance registered under the
    id and takes the id out of the map: the map has one entry less, every
    other id keeps its instance, the local instance is kept, and no other
    instance is touched. *)
Theorem X12_removeRenderer (textureExists : bool) (spaceUserId : string) (m : M.t) :
  (M.renderers m !! spaceUserId = None →
   M.removeRenderer textureExists spaceUserId m = m)
  ∧ M.getRenderer spaceUserId (M.removeRenderer textureExists spaceUserId m) = None
  ∧ (∀ id, id ≠ spaceUserId →
       M.getRenderer id (M.removeRenderer textureExists spaceUserId m)
       = M.getRenderer id m)
  ∧ M.getLocalRenderer (M.removeRenderer textureExists spaceUserId m)
    = M.getLocalRenderer m
  ∧ (∀ l, M.renderers m !! spaceUserId = Some l →
       M.store (M.removeRenderer textureExists spaceUserId m) !! l
       = R.destroy textureExists <$> M.store m !! l
       ∧ S (size (M.renderers (M.removeRenderer textureExists spaceUserId m)))
         = size (M.renderers m))
  ∧ (∀ l, M.renderers m !! spaceUserId ≠ Some l →
       M.store (M.removeRenderer textureExists spaceUserId m) !! l
       = M.store m !! l).
Proof.
  unfold M.removeRenderer, M.getRenderer, M.getLocalRenderer, M.onInstance.
  destruct (M.renderers m !! spaceUserId) as [l0 |] eqn:Hget;
    cbn [M.renderers M.store M.localRenderer M.set_store].
  - split; [discriminate |]. split; [apply lookup_delete_eq |].
    split; [intros id Hne; apply lookup_delete_ne; congruence |].
    split; [reflexivity |]. split.
    + intros l [= <-]. split; [apply list_lookup_alter_eq |].
      rewrite map_size_delete, Hget.
      assert (size (M.renderers m) ≠ 0%nat); [| lia].
      intros Hz. apply map_size_empty_inv in Hz. rewrite Hz in Hget.
      rewrite lookup_empty in Hget. discriminate Hget.
    + intros l Hne. apply list_lookup_alter_ne. congruence.
  - split; [reflexivity |]. split; [exact Hget |].
    split; [reflexivity |]. split; [reflexivity |].
    split; [discriminate | reflexivity].
Qed.

Lemma X12_removeRenderer_witness :
  M.renderers crowded !! "peer3" = Some 6%nat
  ∧ M.getRenderer "peer3" (M.removeRenderer true "peer3" crowded) = None
  ∧ M.store (M.removeRenderer true "peer3" crowded) !! 6%nat
    = R.destroy true <$> M.store crowded !! 6%nat
  ∧ S (size (M.renderers (M.removeRenderer true "peer3" crowded)))
    = size (M.renderers crowded).
Proof.
  assert (H : M.renderers crowded !! "peer3" = Some 6%nat)
    by (vm_compute; reflexivity).
  split; [exact H |].
  destruct (X12_removeRenderer true "peer3" crowded)
    as (_ & Hgone & _ & _ & Hkill & _).
  split; [exact Hgone |]. exact (Hkill _ H).
Defined.

(** X13.  No instance is brought back.  In a registry reached through
    its methods, after [removeRenderer(id)] a [getOrCreateRenderer(id)]
    that the page allows builds a fresh instance under a new reference:
    the placeholder, live, registered under the id; the old instance stays
    in the store, destroyed. *)
Theorem X13_remove_then_create_is_fresh
    (m : M.t) (env : R.Allocation) (textureExists : bool)
    (spaceUserId : string) (l : nat) (old : R.t)
    (Hreach : reachable m)
    (Hctx : R.context2d env = true) (Htex : R.canvasTextureCreated env = true)
    (Hid : M.renderers m !! spaceUserId = Some l)
    (Hold : M.store m !! l = Some old) :
  ∃ (l' : nat) (m' : M.t),
    M.getOrCreateRenderer env spaceUserId
      (M.removeRenderer textureExists spaceUserId m) = (Ok l', m')
    ∧ l' ≠ l
    ∧ M.getRenderer spaceUserId m' = Some l'
    ∧ M.store m' !! l' = Some (fresh ("remote_video_" ++ spaceUserId))
    ∧ M.store m' !! l = Some (R.destroy textureExists old)
    ∧ R.destroyed (R.destroy textureExists old) = true.
Proof.
  pose proof (reachable_registered _ Hreach) as [_ Hvalid _ _].
  pose proof (Hvalid _ _ Hid) as Hl.
  set (m1 := M.removeRenderer textureExists spaceUserId m).
  assert (Hgone : M.renderers m1 !! spaceUserId = None).
  { subst m1. unfold M.removeRenderer. rewrite Hid. cbn. apply lookup_delete_eq. }
  assert (Hstore : M.store m1 = alter (R.destroy textureExists) l (M.store m)).
  { subst m1. unfold M.removeRenderer. rewrite Hid. reflexivity. }
  unfold M.getOrCreateRenderer. rewrite Hgone.
  rewrite (createRemoteRenderer_new m1 env spaceUserId Hgone Hctx Htex).
  eexists _, _. split; [reflexivity |].
  cbn [M.store M.renderers]. unfold M.getRenderer. cbn [M.renderers].
  rewrite Hstore, length_alter.
  split; [lia |]. split; [apply lookup_insert_eq |].
  split; [apply list_lookup_middle; rewrite length_alter; reflexivity |].
  split.
  - rewrite lookup_app_l by (rewrite length_alter; exact Hl).
    rewrite list_lookup_alter_eq, Hold. reflexivity.
  - unfold R.destroy. destruct (R.destroyed old) eqn:E; [exact E |].
    destruct textureExists; reflexivity.
Qed.

Lemma X13_remove_then_create_is_fresh_witness :
  reachable M.new
  ∧ ∃ (l' : nat) (m' : M.t),
      M.getOrCreateRenderer granted "peer1"
        (M.removeRenderer true "peer1"
           (snd (M.createRemoteRenderer granted "peer1" M.new))) = (Ok l', m')
      ∧ l' ≠ 0%nat.
Proof.
  split; [constructor |].
  destruct (X13_remove_then_create_is_fresh
              (snd (M.createRemoteRenderer granted "peer1" M.new))
              granted true "peer1" 0%nat (fresh "remote_video_peer1"))
    as (l' & m' & Hcreate & Hne & _).
  - apply reach_createRemoteRenderer. constructor.
  - reflexivity.
  - reflexivity.
  - vm_compute. reflexivity.
  - vm_compute. reflexivity.
  - exists l', m'. split; [exact Hcreate | exact Hne].
Defined.

(** ** Ticking the registry *)

(** X14.  [update(time)] of a registry that is not destroyed and was
    reached through its methods calls [update(time)] once on the local
    instance and once on every remote instance, touches no other instance
    of the store and leaves the registry itself and the console as they
    are.  On a destroyed registry it does nothing. *)
Theorem X14_update_ticks_every_instance (time : Q) (m : M.t)
    (Hreach : reachable m) :
  (M.destroyed m = true → M.update time m = m)
  ∧ (M.destroyed m = false →
     (∀ l, registeredRef m l →
        M.store (M.update time m) !! l = R.update time <$> M.store m !! l)
     ∧ (∀ l, ¬ registeredRef m l →
          M.store (M.update time m) !! l = M.store m !! l)
     ∧ M.renderers (M.update time m) = M.renderers m
     ∧ M.localRenderer (M.update time m) = M.localRenderer m
     ∧ M.console (M.update time m) = M.console m
     ∧ M.destroyed (M.update time m) = false).
Proof.
  pose proof (reachable_registered _ Hreach) as [_ _ Hinj Hsep].
  unfold M.update. split; [intros ->; reflexivity |]. intros Hd. rewrite Hd.
  set (m1 := match M.localRenderer m with
             | Some l => M.onInstance l (R.update time) m
             | None => m
             end).
  assert (Hr1 : M.renderers m1 = M.renderers m)
    by (subst m1; destruct (M.localRenderer m) eqn:E; reflexivity).
  assert (Hl1 : M.localRenderer m1 = M.localRenderer m)
    by (subst m1; destruct (M.localRenderer m) eqn:E; cbn; congruence).
  assert (Hc1 : M.console m1 = M.console m ∧ M.destroyed m1 = false)
    by (subst m1; destruct (M.localRenderer m) eqn:E;
        split; first [reflexivity | exact Hd]).
  destruct (forEach_onInstance (R.update time) (M.renderers m1) m1)
    as (Hr & Hl & _).
  rewrite Hr1 in *.
  split; [| split; [| split; [exact Hr | split; [rewrite Hl; exact Hl1 |]]]].
  - intros l [Hloc | [id Hid]].
    + rewrite sweep_elsewhere.
      * subst m1. rewrite Hloc. unfold M.onInstance. cbn.
        apply list_lookup_alter_eq.
      * intros id Hid. apply (Hsep _ _ Hid). first [exact Hloc | reflexivity].
    + rewrite (sweep_once _ _ _ Hinj id l Hid). f_equal.
      subst m1. destruct (M.localRenderer m) as [l0 |] eqn:Hloc; [| reflexivity].
      unfold M.onInstance. cbn. apply list_lookup_alter_ne.
      intros ->. apply (Hsep _ _ Hid). first [exact Hloc | reflexivity].
  - intros l Hno. rewrite sweep_elsewhere.
    + subst m1. destruct (M.localRenderer m) as [l0 |] eqn:Hloc; [| reflexivity].
      unfold M.onInstance. cbn. apply list_lookup_alter_ne.
      intros ->. apply Hno. left. exact Hloc.
    + intros id Hid. apply Hno. right. exists id. exact Hid.
  - apply (map_fold_weak_ind
             (λ m' (_ : gmap string nat),
                M.console m' = M.console m ∧ M.destroyed m' = false)).
    + exact Hc1.
    + intros i x mp m' _ IH. exact IH.
Qed.

Lemma X14_update_ticks_every_instance_witness :
  reachable (snd (M.createRemoteRenderer granted "peer1" M.new))
  ∧ M.store (M.update 1000 (snd (M.createRemoteRenderer granted "peer1" M.new)))
      !! 0%nat
    = R.update 1000
      <$> M.store (snd (M.createRemoteRenderer granted "peer1" M.new)) !! 0%nat.
Proof.
  assert (H : reachable (snd (M.createRemoteRenderer granted "peer1" M.new)))
    by (apply reach_createRemoteRenderer; constructor).
  split; [exact H |].
  destruct (X14_update_ticks_every_instance 1000 _ H) as (_ & Hlive).
  destruct (Hlive eq_refl) as (Hticked & _).
  apply Hticked. right. exists "peer1". vm_compute. reflexivity.
Defined.

(** X15.  Ticking never changes who counts as video-active: after
    [update(time)] every instance answers [isVideoActive()] as before, so
    [getActiveVideoCount()] and [canAddVideoStream()] are unchanged. *)
Theorem X15_update_keeps_active_count (time : Q) (m : M.t) :
  (∀ l, M.videoActiveAt (M.update time m) l = M.videoActiveAt m l)
  ∧ M.getActiveVideoCount (M.update time m) = M.getActiveVideoCount m
  ∧ M.canAddVideoStream (M.update time m) = M.canAddVideoStream m.
Proof.
  assert (Hkeep : ∀ r, R.isVideoActive (R.update time r) = R.isVideoActive r).
  { intros r. unfold R.update, R.drawVideoFrame, R.refreshTexture, R.isVideoActive.
    destruct r as [k c tx v clock a mk ml d]. cbn.
    destruct d; [reflexivity |]. destruct a; cbn; [| reflexivity].
    destruct (Qlt_bool (time - clock) R.frameInterval); [reflexivity |].
    destruct ((R.videoWidth v =? 0)%Z || (R.videoHeight v =? 0)%Z)%bool;
      reflexivity. }
  assert (Hat : ∀ l, M.videoActiveAt (M.update time m) l = M.videoActiveAt m l).
  { intros l. unfold M.videoActiveAt, M.update.
    destruct (M.destroyed m); [reflexivity |].
    pose proof (sweep_keeps (R.update time) R.isVideoActive
                  (M.renderers
                     match M.localRenderer m with
                     | Some l0 => M.onInstance l0 (R.update time) m
                     | None => m
                     end)
                  match M.localRenderer m with
                  | Some l0 => M.onInstance l0 (R.update time) m
                  | None => m
                  end Hkeep l) as Hs.
    assert (H1 : R.isVideoActive
                 <$> M.store match M.localRenderer m with
                             | Some l0 => M.onInstance l0 (R.update time) m
                             | None => m
                             end !! l
                 = R.isVideoActive <$> M.store m !! l).
    { destruct (M.localRenderer m) as [l0 |]; [| reflexivity].
      unfold M.onInstance. cbn [M.store M.set_store].
      rewrite list_lookup_alter. destruct (decide (l0 = l)) as [-> |];
        [| reflexivity].
      destruct (M.store m !! l); cbn; [| reflexivity]. rewrite Hkeep.
      reflexivity. }
    rewrite H1 in Hs.
    destruct (M.store (map_fold _ _ _) !! l), (M.store m !! l);
      cbn in Hs; congruence. }
  assert (Hreg : M.renderers (M.update time m) = M.renderers m
                 ∧ M.localRenderer (M.update time m) = M.localRenderer m).
  { unfold M.update. destruct (M.destroyed m); [split; reflexivity |].
    destruct (M.localRenderer m) as [l0 |] eqn:Hloc.
    - destruct (forEach_onInstance (R.update time)
                  (M.renderers (M.onInstance l0 (R.update time) m))
                  (M.onInstance l0 (R.update time) m)) as (Hr & Hl & _).
      rewrite Hr, Hl. split; [reflexivity | exact Hloc].
    - destruct (forEach_onInstance (R.update time) (M.renderers m) m)
        as (Hr & Hl & _).
      rewrite Hr, Hl. split; [reflexivity | exact Hloc]. }
  destruct Hreg as [Hr Hl].
  assert (Hcount : M.getActiveVideoCount (M.update time m)
                   = M.getActiveVideoCount m).
  { unfold M.getActiveVideoCount. rewrite !count_forEach, Hr, Hl.
    f_equal.
    - destruct (M.localRenderer m); [rewrite Hat |]; reflexivity.
    - f_equal. apply map_filter_ext. intros i x _. cbn. rewrite Hat. tauto. }
  split; [exact Hat |]. split; [exact Hcount |].
  unfold M.canAddVideoStream. rewrite Hcount. reflexivity.
Qed.

(** ** Tearing the registry down *)

Lemma destroy_destroys (e : bool) (r : R.t) : R.destroyed (R.destroy e r) = true.
Proof.
  unfold R.destroy. destruct (R.destroyed r) eqn:E; [exact E |].
  destruct e; reflexivity.
Qed.

(** The store after [destroy()]: the local instance is destroyed first,
    then a sweep destroys the remote ones. *)
Lemma destroy_store (textureExists : string → bool) (m : M.t) :
  M.destroyed m = false →
  M.store (M.destroy textureExists m)
  = M.store
      (map_fold
         (λ _ l m',
            M.onInstance l
              (λ r, R.destroy (textureExists (R.textureKey r)) r) m')
         {| M.store :=
              match M.localRenderer m with
              | Some l0 =>
                  alter (λ r, R.destroy (textureExists (R.textureKey r)) r)
                        l0 (M.store m)
              | None => M.store m
              end;
            M.renderers := M.renderers m; M.localRenderer := None;
            M.destroyed := true; M.console := M.console m |}
         (M.renderers m)).
Proof.
  intros Hlive. unfold M.destroy. rewrite Hlive. cbv zeta. cbn [M.store].
  destruct (M.localRenderer m); reflexivity.
Qed.

(** X16.  [destroy()] of a registry that is not yet destroyed sets its
    flag, forgets the local instance and empties the map, writes nothing
    to the console, and leaves in the store, destroyed, every instance the
    registry held.  Afterwards no instance counts as video-active through
    the registry, [update] does nothing, and a second [destroy()] does
    nothing. *)
Theorem X16_destroy_registry
    (textureExists again : string → bool) (time : Q) (m : M.t)
    (Hlive : M.destroyed m = false) :
  M.destroyed (M.destroy textureExists m) = true
  ∧ M.renderers (M.destroy textureExists m) = ∅
  ∧ M.getLocalRenderer (M.destroy textureExists m) = None
  ∧ M.console (M.destroy textureExists m) = M.console m
  ∧ (∀ l r, registeredRef m l → M.store m !! l = Some r →
       ∃ r', M.store (M.destroy textureExists m) !! l = Some r'
             ∧ R.destroyed r' = true)
  ∧ M.getActiveVideoCount (M.destroy textureExists m) = 0%nat
  ∧ M.update time (M.destroy textureExists m) = M.destroy textureExists m
  ∧ M.destroy again (M.destroy textureExists m) = M.destroy textureExists m.
Proof.
  destruct (destroy_clears textureExists m Hlive) as [Hr Hl].
  assert (Hd : M.destroyed (M.destroy textureExists m) = true).
  { unfold M.destroy. rewrite Hlive. cbv zeta. cbn [M.destroyed].
    apply (map_fold_weak_ind (λ m' (_ : gmap string nat), M.destroyed m' = true));
      [| intros; assumption].
    cbn. destruct (M.localRenderer m); reflexivity. }
  split; [exact Hd |]. split; [exact Hr |]. split; [exact Hl |].
  split.
  { unfold M.destroy. rewrite Hlive. cbv zeta. cbn [M.console].
    apply (map_fold_weak_ind
             (λ m' (_ : gmap string nat), M.console m' = M.console m));
      [| intros; assumption].
    cbn. destruct (M.localRenderer m); reflexivity. }
  split.
  { intros l r Href Hstore. rewrite (destroy_store textureExists m Hlive).
    set (kill := λ r0 : R.t,
           R.destroy (textureExists (R.textureKey r0)) r0).
    match goal with
    | |- context [map_fold _ ?m0 _] => set (m1 := m0)
    end.
    assert (H1 : ∃ r1, M.store m1 !! l = Some r1
                       ∧ (M.localRenderer m = Some l → R.destroyed r1 = true)).
    { subst m1. cbn [M.store].
      destruct (M.localRenderer m) as [l0 |] eqn:Hloc.
      - rewrite list_lookup_alter. destruct (decide (l0 = l)) as [-> |].
        + rewrite Hstore. eexists. split; [reflexivity |].
          intros _. apply destroy_destroys.
        + exists r. split; [exact Hstore |]. congruence.
      - exists r. split; [exact Hstore |]. discriminate. }
    destruct H1 as (r1 & Hr1 & Hdead).
    destruct (sweep_establishes kill (λ r0, R.destroyed r0 = true)
                (M.renderers m) m1 (λ r0, destroy_destroys _ r0) l r1 Hr1)
      as (r' & Hr' & Hq).
    exists r'. split; [exact Hr' |]. apply Hq.
    destruct Href as [Hloc | [id Hid]]; [left; auto |].
    right. exists id. exact Hid. }
  split.
  { unfold M.getActiveVideoCount. rewrite Hr.
    unfold M.getLocalRenderer in Hl. rewrite Hl. reflexivity. }
  split.
  - unfold M.update. rewrite Hd. reflexivity.
  - unfold M.destroy at 1. rewrite Hd. reflexivity.
Qed.

Lemma X16_destroy_registry_witness :
  M.destroyed crowded = false
  ∧ M.getActiveVideoCount crowded = 9%nat
  ∧ M.getActiveVideoCount (M.destroy everyTexture crowded) = 0%nat
  ∧ M.destroy noTexture (M.destroy everyTexture crowded)
    = M.destroy everyTexture crowded.
Proof.
  split; [reflexivity |]. split; [vm_compute; reflexivity |].
  destruct (X16_destroy_registry everyTexture noTexture 0 crowded)
    as (_ & _ & _ & _ & _ & Hcount & _ & Hagain); [reflexivity |].
  split; [exact Hcount | exact Hagain].
Defined.

(** X17.  The flag of a destroyed registry stops [update] and [destroy]
    only.  A destroyed registry still builds and registers an instance for
    a new id when asked, and hands out a local instance, but [update]
    never ticks them. *)
Theorem X17_destroyed_registry_still_creates
    (m : M.t) (env : R.Allocation) (spaceUserId : string) (time : Q)
    (Hdead : M.destroyed m = true)
    (Hctx : R.context2d env = true) (Htex : R.canvasTextureCreated env = true)
    (Hnew : M.renderers m !! spaceUserId = None) :
  ∃ (l : nat) (m' : M.t),
    M.getOrCreateRenderer env spaceUserId m = (Ok l, m')
    ∧ M.getRenderer spaceUserId m' = Some l
    ∧ M.store m' !! l = Some (fresh ("remote_video_" ++ spaceUserId))
    ∧ M.destroyed m' = true
    ∧ M.update time m' = m'
    ∧ (M.localRenderer m = None →
       ∃ k m'', M.createLocalRenderer env m = (Ok k, m'')
                ∧ M.getLocalRenderer m'' = Some k
                ∧ M.update time m'' = m'').
Proof.
  unfold M.getOrCreateRenderer. rewrite Hnew.
  rewrite (createRemoteRenderer_new m env spaceUserId Hnew Hctx Htex).
  eexists _, _. split; [reflexivity |].
  unfold M.getRenderer, M.update. cbn [M.renderers M.store M.destroyed].
  split; [apply lookup_insert_eq |].
  split; [apply list_lookup_middle; reflexivity |].
  split; [exact Hdead |]. rewrite Hdead. split; [reflexivity |].
  intros Hloc. unfold M.createLocalRenderer. rewrite Hloc.
  rewrite new_ok by assumption.
  eexists _, _. split; [reflexivity |]. unfold M.getLocalRenderer.
  cbn [M.localRenderer M.destroyed]. rewrite Hdead. split; reflexivity.
Qed.

Lemma X17_destroyed_registry_still_creates_witness :
  M.destroyed (M.destroy everyTexture crowded) = true
  ∧ ∃ (l : nat) (m' : M.t),
      M.getOrCreateRenderer granted "peer1" (M.destroy everyTexture crowded)
      = (Ok l, m')
      ∧ M.update 1000 m' = m'.
Proof.
  assert (Hd : M.destroyed (M.destroy everyTexture crowded) = true)
    by (vm_compute; reflexivity).
  split; [exact Hd |].
  destruct (X17_destroyed_registry_still_creates
              (M.destroy everyTexture crowded) granted "peer1" 1000 Hd
              eq_refl eq_refl)
    as (l & m' & Hcreate & _ & _ & _ & Htick & _).
  - vm_compute. reflexivity.
  - exists l, m'. split; [exact Hcreate | exact Htick].
Defined.

(** ** Texture keys *)

Lemma operated_reachable (m : M.t) : operated m → reachable m.
Proof. induction 1; constructor; assumption. Qed.

Lemma react_textureKey (e : R.Event) (r : R.t) :
  R.textureKey (react e r) = R.textureKey r.
Proof.
  destruct r as [k c tx v clock a mk ml d].
  destruct e; cbn [react];
    unfold R.setStream, R.setMaskImage, R.update, R.destroy, R.img_onload,
      R.img_onerror, R.drawMaskToCanvas, R.drawPlaceholder, R.drawVideoFrame,
      R.refreshTexture; cbn;
    repeat match goal with
           | |- context [if ?b then _ else _] => destruct b
           | |- context [match ?o with Some _ => _ | None => _ end] =>
               destruct o
           end; reflexivity.
Qed.

Lemma keyed_same_registry (m m' : M.t) :
  M.renderers m' = M.renderers m → M.localRenderer m' = M.localRenderer m →
  (∀ l, R.textureKey <$> M.store m' !! l = R.textureKey <$> M.store m !! l) →
  keyed m → keyed m'.
Proof.
  intros Hr Hl Hs [H1 H2]. split; rewrite ?Hr, ?Hl.
  - intros l r Hloc Hst. specialize (Hs l). rewrite Hst in Hs.
    destruct (M.store m !! l) as [r0 |] eqn:E; [| discriminate Hs].
    injection Hs as ->. eapply H1; eassumption.
  - intros id l r Hid Hst. specialize (Hs l). rewrite Hst in Hs.
    destruct (M.store m !! l) as [r0 |] eqn:E; [| discriminate Hs].
    injection Hs as ->. eapply H2; eassumption.
Qed.

Lemma keyed_onInstance (l : nat) (f : R.t → R.t) (m : M.t) :
  (∀ r, R.textureKey (f r) = R.textureKey r) →
  keyed m → keyed (M.onInstance l f m).
Proof.
  intros Hf. apply keyed_same_registry; [reflexivity | reflexivity |].
  intros k. unfold M.onInstance. cbn [M.store M.set_store].
  rewrite list_lookup_alter. destruct (decide (l = k)) as [-> |]; [| reflexivity].
  destruct (M.store m !! k); cbn; [| reflexivity]. rewrite Hf. reflexivity.
Qed.

Lemma keyed_createRemoteRenderer env spaceUserId (m : M.t) :
  registered m → keyed m → keyed (snd (M.createRemoteRenderer env spaceUserId m)).
Proof.
  intros [V1 V2 _ _] Hk. pose proof Hk as [K1 K2]. unfold M.createRemoteRenderer.
  destruct (M.renderers m !! spaceUserId) as [existing |] eqn:Hget; [exact Hk |].
  cbv zeta. unfold R.new.
  destruct (negb (R.context2d env)).
  { cbn [snd]. destruct (M.MAX_CONCURRENT_VIDEO <=? size (M.renderers m))%nat;
      [| exact Hk].
    eapply keyed_same_registry; [| | | exact Hk]; reflexivity. }
  destruct (negb (R.canvasTextureCreated env)).
  { cbn [snd]. destruct (M.MAX_CONCURRENT_VIDEO <=? size (M.renderers m))%nat;
      [| exact Hk].
    eapply keyed_same_registry; [| | | exact Hk]; reflexivity. }
  cbn [snd].
  assert (Hst : M.store (if (M.MAX_CONCURRENT_VIDEO <=? size (M.renderers m))%nat
                         then M.warn "Maximum concurrent video avatars (8) reached" m
                         else m) = M.store m
                ∧ M.renderers (if (M.MAX_CONCURRENT_VIDEO <=? size (M.renderers m))%nat
                               then M.warn "Maximum concurrent video avatars (8) reached" m
                               else m) = M.renderers m
                ∧ M.localRenderer (if (M.MAX_CONCURRENT_VIDEO <=? size (M.renderers m))%nat
                                   then M.warn "Maximum concurrent video avatars (8) reached" m
                                   else m) = M.localRenderer m).
  { destruct (M.MAX_CONCURRENT_VIDEO <=? size (M.renderers m))%nat;
      repeat split. }
  destruct Hst as (-> & -> & ->).
  split; cbn [M.localRenderer M.renderers M.store].
  - intros l r Hloc Hst. pose proof (V1 _ Hloc) as Hlt.
    rewrite lookup_app_l in Hst by exact Hlt. eapply K1; eassumption.
  - intros id l r Hid Hst. apply lookup_insert_Some in Hid.
    destruct Hid as [[<- <-] | [_ Hid]].
    + rewrite list_lookup_middle in Hst by reflexivity.
      injection Hst as <-. reflexivity.
    + pose proof (V2 _ _ Hid) as Hlt.
      rewrite lookup_app_l in Hst by exact Hlt. eapply K2; eassumption.
Qed.

Lemma keyed_createLocalRenderer env (m : M.t) :
  registered m → keyed m → keyed (snd (M.createLocalRenderer env m)).
Proof.
  intros [V1 V2 _ _] Hk. pose proof Hk as [K1 K2]. unfold M.createLocalRenderer.
  destruct (M.localRenderer m) as [l0 |] eqn:Hloc; [exact Hk |].
  unfold R.new.
  destruct (negb (R.context2d env)); [exact Hk |].
  destruct (negb (R.canvasTextureCreated env)); [exact Hk |].
  cbn [snd]. split; cbn [M.localRenderer M.renderers M.store].
  - intros l r [= <-] Hst. rewrite list_lookup_middle in Hst by reflexivity.
    injection Hst as <-. reflexivity.
  - intros id l r Hid Hst. pose proof (V2 _ _ Hid) as Hlt.
    rewrite lookup_app_l in Hst by exact Hlt. eapply K2; eassumption.
Qed.

Lemma operated_keyed (m : M.t) : operated m → keyed m.
Proof.
  induction 1 as [| env m Hop IH | env id m Hop IH | env id m Hop IH
                  | time m Hop IH | ex id m Hop IH | ex m Hop IH | l e m Hop IH].
  - split; cbn; intros; discriminate.
  - apply keyed_createLocalRenderer; [| exact IH].
    apply reachable_registered, operated_reachable, Hop.
  - apply keyed_createRemoteRenderer; [| exact IH].
    apply reachable_registered, operated_reachable, Hop.
  - unfold M.getOrCreateRenderer. destruct (M.renderers m !! id); [exact IH |].
    apply keyed_createRemoteRenderer; [| exact IH].
    apply reachable_registered, operated_reachable, Hop.
  - unfold M.update. destruct (M.destroyed m); [exact IH |].
    destruct (M.localRenderer m) as [l0 |] eqn:Hloc.
    + pose proof (keyed_onInstance l0 (R.update time) m
                    (react_textureKey (R.call_update time)) IH) as H1.
      destruct (forEach_onInstance (R.update time)
                  (M.renderers (M.onInstance l0 (R.update time) m))
                  (M.onInstance l0 (R.update time) m)) as (Hr & Hl & _).
      eapply keyed_same_registry; [exact Hr | exact Hl | | exact H1].
      apply sweep_keeps. exact (react_textureKey (R.call_update time)).
    + destruct (forEach_onInstance (R.update time) (M.renderers m) m)
        as (Hr & Hl & _).
      eapply keyed_same_registry; [exact Hr | exact Hl | | exact IH].
      apply sweep_keeps. exact (react_textureKey (R.call_update time)).
  - unfold M.removeRenderer. destruct (M.renderers m !! id) as [l0 |] eqn:Hget;
      [| exact IH].
    pose proof (keyed_onInstance l0 (R.destroy ex) m
                  (react_textureKey (R.call_destroy ex)) IH) as [K1 K2].
    split; cbn [M.localRenderer M.renderers M.store].
    + exact K1.
    + intros id' l r Hid Hst. apply lookup_delete_Some in Hid.
      destruct Hid as [_ Hid]. eapply K2; eassumption.
  - destruct (M.destroyed m) eqn:Hd.
    + unfold M.destroy. rewrite Hd. exact IH.
    + destruct (destroy_clears ex m Hd) as [Hr Hl].
      split; rewrite ?Hr, ?Hl; intros; try discriminate.
      all: try match goal with H : _ !! _ = Some _ |- _ =>
                 rewrite lookup_empty in H; discriminate H end.
  - apply keyed_onInstance; [apply react_textureKey | exact IH].
Qed.

Lemma append_cancel (prefix a b : string) :
  prefix ++ a = prefix ++ b → a = b.
Proof.
  induction prefix as [| c prefix IH]; cbn; intros H; [exact H |].
  injection H as H. apply IH, H.
Qed.

(** X18.  In every registry that the methods of the registry and the
    calls and handlers of its instances can produce, the local instance
    draws into the texture "local_video_avatar" and the instance of a
    participant into "remote_video_" followed by the participant id; so
    two registered instances never share a texture key. *)
Theorem X18_texture_keys_are_distinct (m : M.t) (Hop : operated m) :
  (∀ l r, M.getLocalRenderer m = Some l → M.store m !! l = Some r →
          R.getTextureKey r = "local_video_avatar")
  ∧ (∀ id l r, M.getRenderer id m = Some l → M.store m !! l = Some r →
               R.getTextureKey r = "remote_video_" ++ id)
  ∧ (∀ id1 id2 l1 l2 r1 r2,
       M.getRenderer id1 m = Some l1 → M.store m !! l1 = Some r1 →
       M.getRenderer id2 m = Some l2 → M.store m !! l2 = Some r2 →
       R.getTextureKey r1 = R.getTextureKey r2 → id1 = id2 ∧ l1 = l2)
  ∧ (∀ id l r k rl,
       M.getRenderer id m = Some l → M.store m !! l = Some r →
       M.getLocalRenderer m = Some k → M.store m !! k = Some rl →
       R.getTextureKey r ≠ R.getTextureKey rl).
Proof.
  destruct (operated_keyed m Hop) as [K1 K2].
  unfold M.getLocalRenderer, M.getRenderer, R.getTextureKey.
  split; [exact K1 |]. split; [exact K2 |]. split.
  - intros id1 id2 l1 l2 r1 r2 H1 S1 H2 S2 E.
    rewrite (K2 _ _ _ H1 S1), (K2 _ _ _ H2 S2) in E.
    apply append_cancel in E. subst id2.
    split; [reflexivity | congruence].
  - intros id l r k rl H1 S1 H2 S2 E.
    rewrite (K2 _ _ _ H1 S1), (K1 _ _ H2 S2) in E. cbn in E. discriminate E.
Qed.

Lemma X18_texture_keys_are_distinct_witness :
  operated ninth
  ∧ ∀ r, M.getRenderer "peer9" ninth = Some 9%nat → M.store ninth !! 9%nat = Some r →
         R.getTextureKey r = "remote_video_peer9".
Proof.
  assert (Hop : operated ninth).
  { unfold ninth, crowded. apply op_getOrCreateRenderer. cbn [foldr].
    repeat (unfold join at 1;
            match goal with
            | |- operated match M.getOrCreateRenderer ?e ?i ?m with _ => _ end =>
                let H := fresh in
                assert (H : operated (snd (M.getOrCreateRenderer e i m)));
                [ apply op_getOrCreateRenderer
                | destruct (M.getOrCreateRenderer e i m) as [[l | msg] m'];
                  [ apply (op_react l (R.call_setStream (Some camera))); exact H
                  | exact H ] ]
            end).
    unfold alone.
    assert (H : operated (snd (M.createLocalRenderer granted M.new)))
      by (apply op_createLocalRenderer; constructor).
    destruct (M.createLocalRenderer granted M.new) as [[l | msg] m'];
      [apply (op_react l (R.call_setStream (Some camera))); exact H | exact H]. }
  split; [exact Hop |].
  destruct (X18_texture_keys_are_distinct ninth Hop) as (_ & Hremote & _).
  intros r. apply Hremote.
Defined.

(** ** The count follows the instances *)

Lemma size_filter_split {V : Type} (P : string * V → Prop)
    `{∀ kv, Decision (P kv)} (mp : gmap string V) (id : string) (x : V) :
  mp !! id = Some x →
  size (filter P mp)
  = ((if decide (P (id, x)) then 1 else 0) + size (filter P (delete id mp)))%nat.
Proof.
  intros Hid. rewrite <- (insert_delete_id mp id x Hid) at 1.
  rewrite map_filter_insert. destruct (decide (P (id, x))).
  - rewrite map_size_insert_None; [lia |].
    apply map_lookup_filter_None_2. left. apply lookup_delete_eq.
  - rewrite (delete_id (delete id mp)) by apply lookup_delete_eq. reflexivity.
Qed.

Lemma videoActiveAt_onInstance (m : M.t) (l k : nat) (f : R.t → R.t) :
  k ≠ l → M.videoActiveAt (M.onInstance l f m) k = M.videoActiveAt m k.
Proof.
  intros Hne. unfold M.videoActiveAt, M.onInstance. cbn [M.store M.set_store].
  rewrite list_lookup_alter_ne by congruence. reflexivity.
Qed.

(** X19.  The count is never stale and counts every registered instance
    once.  In a registry reached through its methods, when a call or a
    handler [f] runs on a registered instance, [getActiveVideoCount()]
    moves by exactly the change of that instance: up by one if it enters
    video mode, down by one if it leaves it, not at all otherwise. *)
Theorem X19_count_follows_instance
    (m : M.t) (l : nat) (f : R.t → R.t) (r : R.t)
    (Hreach : reachable m) (Href : registeredRef m l)
    (Hstore : M.store m !! l = Some r) :
  (M.getActiveVideoCount (M.onInstance l f m)
   + (if R.isVideoActive r then 1 else 0))%nat
  = (M.getActiveVideoCount m + (if R.isVideoActive (f r) then 1 else 0))%nat.
Proof.
  pose proof (reachable_registered _ Hreach) as [_ _ Hinj Hsep].
  assert (Hbefore : M.videoActiveAt m l = R.isVideoActive r).
  { unfold M.videoActiveAt. rewrite Hstore. reflexivity. }
  assert (Hafter : M.videoActiveAt (M.onInstance l f m) l = R.isVideoActive (f r)).
  { unfold M.videoActiveAt, M.onInstance. cbn [M.store M.set_store].
    rewrite list_lookup_alter_eq, Hstore. reflexivity. }
  unfold M.getActiveVideoCount. rewrite !count_forEach.
  change (M.renderers (M.onInstance l f m)) with (M.renderers m).
  change (M.localRenderer (M.onInstance l f m)) with (M.localRenderer m).
  destruct Href as [Hloc | [id Hid]].
  - rewrite Hloc, Hafter, Hbefore.
    assert (E : filter (λ kv, M.videoActiveAt (M.onInstance l f m) kv.2 = true)
                       (M.renderers m)
                = filter (λ kv, M.videoActiveAt m kv.2 = true) (M.renderers m)).
    { apply map_filter_ext. intros i x Hi. cbn.
      rewrite videoActiveAt_onInstance; [tauto |].
      intros ->. exact (Hsep _ _ Hi Hloc). }
    rewrite E. destruct (R.isVideoActive r), (R.isVideoActive (f r)); lia.
  - assert (Hlocal : match M.localRenderer m with
                     | Some l0 => if M.videoActiveAt (M.onInstance l f m) l0
                                  then 1%nat else 0%nat
                     | None => 0%nat
                     end
                     = match M.localRenderer m with
                       | Some l0 => if M.videoActiveAt m l0 then 1%nat else 0%nat
                       | None => 0%nat
                       end).
    { destruct (M.localRenderer m) as [l0 |] eqn:Hloc; [| reflexivity].
      rewrite videoActiveAt_onInstance; [reflexivity |].
      intros ->. apply (Hsep _ _ Hid). first [exact Hloc | reflexivity]. }
    rewrite Hlocal.
    rewrite (size_filter_split _ (M.renderers m) id l Hid).
    rewrite (size_filter_split (λ kv, M.videoActiveAt m kv.2 = true)
               (M.renderers m) id l Hid).
    assert (E : filter (λ kv, M.videoActiveAt (M.onInstance l f m) kv.2 = true)
                       (delete id (M.renderers m))
                = filter (λ kv, M.videoActiveAt m kv.2 = true)
                         (delete id (M.renderers m))).
    { apply map_filter_ext. intros i x Hi. cbn.
      apply lookup_delete_Some in Hi. destruct Hi as [Hne Hi].
      rewrite videoActiveAt_onInstance; [tauto |].
      intros ->. apply Hne. exact (Hinj _ _ _ Hid Hi). }
    rewrite E. cbn [snd]. rewrite Hafter, Hbefore.
    repeat case_decide;
      destruct (R.isVideoActive r), (R.isVideoActive (f r));
      try congruence; lia.
Qed.

Lemma X19_count_follows_instance_witness :
  reachable (snd (M.createRemoteRenderer granted "peer1" M.new))
  ∧ M.getActiveVideoCount (snd (M.createRemoteRenderer granted "peer1" M.new))
    = 0%nat
  ∧ M.getActiveVideoCount
      (M.onInstance 0 (R.setStream (Some camera))
         (snd (M.createRemoteRenderer granted "peer1" M.new))) = 1%nat.
Proof.
  assert (H : reachable (snd (M.createRemoteRenderer granted "peer1" M.new)))
    by (apply reach_createRemoteRenderer; constructor).
  assert (H0 : M.getActiveVideoCount
                 (snd (M.createRemoteRenderer granted "peer1" M.new)) = 0%nat)
    by (vm_compute; reflexivity).
  split; [exact H |]. split; [exact H0 |].
  pose proof (X19_count_follows_instance
                (snd (M.createRemoteRenderer granted "peer1" M.new)) 0%nat
                (R.setStream (Some camera)) (fresh "remote_video_peer1") H) as Hx.
  rewrite H0 in Hx.
  assert (Hone : (if R.isVideoActive
                       (R.setStream (Some camera) (fresh "remote_video_peer1"))
                  then 1 else 0)%nat = 1%nat) by (vm_compute; reflexivity).
  assert (Hzero : (if R.isVideoActive (fresh "remote_video_peer1")
                   then 1 else 0)%nat = 0%nat) by (vm_compute; reflexivity).
  rewrite Hone, Hzero in Hx. rewrite Nat.add_0_r in Hx. apply Hx.
  - right. exists "peer1". vm_compute. reflexivity.
  - vm_compute. reflexivity.
Defined.

(** * Properties of the mask panel and of the preference stores *)

Section Upload.
Local Open Scope Q_scope.

(** X20.  The uploaded image is scaled down to fit 64x64 and never scaled
    up.  For an image of non-negative size, the size it is drawn at lies
    within 64x64 and within the original size, keeps the aspect of the
    original (no division by zero occurs), is the original size when that
    already fits, and otherwise has its longer side equal to 64. *)
Theorem X20_upload_is_scaled_to_fit (imgWidth imgHeight : Z)
    (Hw : (0 ≤ imgWidth)%Z) (Hh : (0 ≤ imgHeight)%Z) :
  0 <= fst (MaskSelector.resized imgWidth imgHeight) <= 64
  ∧ 0 <= snd (MaskSelector.resized imgWidth imgHeight) <= 64
  ∧ fst (MaskSelector.resized imgWidth imgHeight) <= inject_Z imgWidth
  ∧ snd (MaskSelector.resized imgWidth imgHeight) <= inject_Z imgHeight
  ∧ fst (MaskSelector.resized imgWidth imgHeight) * inject_Z imgHeight
    == inject_Z imgWidth * snd (MaskSelector.resized imgWidth imgHeight)
  ∧ ((imgWidth ≤ 64)%Z → (imgHeight ≤ 64)%Z →
     MaskSelector.resized imgWidth imgHeight
     = (inject_Z imgWidth, inject_Z imgHeight))
  ∧ ((64 < imgWidth)%Z ∨ (64 < imgHeight)%Z →
     (fst (MaskSelector.resized imgWidth imgHeight) == 64
      ∧ snd (MaskSelector.resized imgWidth imgHeight) <= 64
      ∧ (imgHeight < imgWidth)%Z)
     ∨ (snd (MaskSelector.resized imgWidth imgHeight) == 64
        ∧ fst (MaskSelector.resized imgWidth imgHeight) <= 64
        ∧ (imgWidth ≤ imgHeight)%Z)).
Proof.
  assert (Pw : 0 <= inject_Z imgWidth) by (rewrite (Zle_Qle 0) in Hw; exact Hw).
  assert (Ph : 0 <= inject_Z imgHeight) by (rewrite (Zle_Qle 0) in Hh; exact Hh).
  assert (Lw : (imgWidth ≤ 64)%Z → inject_Z imgWidth <= 64).
  { intros H. rewrite Zle_Qle in H. exact H. }
  assert (Lh : (imgHeight ≤ 64)%Z → inject_Z imgHeight <= 64).
  { intros H. rewrite Zle_Qle in H. exact H. }
  assert (Gw : (64 < imgWidth)%Z → 64 < inject_Z imgWidth).
  { intros H. rewrite Zlt_Qlt in H. exact H. }
  assert (Gh : (64 < imgHeight)%Z → 64 < inject_Z imgHeight).
  { intros H. rewrite Zlt_Qlt in H. exact H. }
  assert (Cmp : inject_Z imgHeight < inject_Z imgWidth ↔ (imgHeight < imgWidth)%Z).
  { rewrite Zlt_Qlt. reflexivity. }
  unfold MaskSelector.resized, MaskSelector.maxSize.
  set (W := inject_Z imgWidth) in *. set (H := inject_Z imgHeight) in *.
  destruct (Qlt_bool H W) eqn:Ehw.
  - apply Qlt_bool_true in Ehw.
    destruct (Qlt_bool 64 W) eqn:Ew.
    + apply Qlt_bool_true in Ew. cbn [fst snd].
      assert (Hq0 : 0 <= H * 64 / W) by (apply Qle_shift_div_l; lra).
      assert (Hq1 : H * 64 / W <= 64) by (apply Qle_shift_div_r; lra).
      assert (Hq2 : H * 64 / W <= H).
      { apply Qle_shift_div_r; [lra |]. nra. }
      assert (Hq3 : 64 * H == W * (H * 64 / W)) by (field; lra).
      repeat split; try lra.
      * intros Hle. apply Lw in Hle. lra.
      * intros _. left. repeat split; try lra. apply Cmp. exact Ehw.
    + apply Qlt_bool_false in Ew. cbn [fst snd].
      repeat split; try lra. intros [G | G]; [apply Gw in G | apply Gh in G]; lra.
  - apply Qlt_bool_false in Ehw.
    destruct (Qlt_bool 64 H) eqn:Eh.
    + apply Qlt_bool_true in Eh. cbn [fst snd].
      assert (Hq0 : 0 <= W * 64 / H) by (apply Qle_shift_div_l; lra).
      assert (Hq1 : W * 64 / H <= 64) by (apply Qle_shift_div_r; lra).
      assert (Hq2 : W * 64 / H <= W).
      { apply Qle_shift_div_r; [lra |]. nra. }
      assert (Hq3 : W * 64 / H * H == W * 64) by (field; lra).
      repeat split; try lra.
      * intros _ Hle. apply Lh in Hle. lra.
      * intros _. right. repeat split; try lra.
        apply Z.le_ngt. intros G. apply Cmp in G. lra.
    + apply Qlt_bool_false in Eh. cbn [fst snd].
      repeat split; try lra. intros [G | G]; [apply Gw in G | apply Gh in G]; lra.
Qed.

Lemma X20_upload_is_scaled_to_fit_witness :
  (0 ≤ 1920)%Z ∧ (0 ≤ 1080)%Z
  ∧ snd (MaskSelector.resized 1920 1080) <= 64
  ∧ fst (MaskSelector.resized 1920 1080) * inject_Z 1080
    == inject_Z 1920 * snd (MaskSelector.resized 1920 1080).
Proof.
  split; [discriminate |]. split; [discriminate |].
  destruct (X20_upload_is_scaled_to_fit 1920 1080)
    as (_ & [_ Hfit] & _ & _ & Hasp & _); [discriminate | discriminate |].
  split; [exact Hfit | exact Hasp].
Defined.

End Upload.

(** X21.  The upload handler reads a file exactly when one was picked,
    its MIME type starts with "image/" and it is at most 102400 bytes
    long.  With no file it does nothing and warns of nothing; a file of
    another type gets the type warning whatever its size; an image file
    above the limit gets the size warning. *)
Theorem X21_upload_validation (file : option MaskSelector.File) :
  (MaskSelector.handleFileSelect file = MaskSelector.read
   ↔ ∃ f, file = Some f
          ∧ String.prefix "image/" (MaskSelector.type f) = true
          ∧ (MaskSelector.size f ≤ 102400)%Z)
  ∧ (MaskSelector.handleFileSelect file = MaskSelector.ignored ↔ file = None)
  ∧ (∀ f, file = Some f →
          String.prefix "image/" (MaskSelector.type f) = false →
          MaskSelector.handleFileSelect file
          = MaskSelector.rejected "Invalid file type. Please select an image.")
  ∧ (∀ f, file = Some f →
          String.prefix "image/" (MaskSelector.type f) = true →
          (102400 < MaskSelector.size f)%Z →
          MaskSelector.handleFileSelect file
          = MaskSelector.rejected
              "File too large. Please select an image under 100KB.").
Proof.
  unfold MaskSelector.handleFileSelect.
  destruct file as [f |].
  - destruct (String.prefix "image/" (MaskSelector.type f)) eqn:Et; cbn [negb].
    + change (100 * 1024)%Z with 102400%Z.
      destruct (102400 <? MaskSelector.size f)%Z eqn:Es.
      * apply Z.ltb_lt in Es. split.
        { split; [discriminate |]. intros (g & [= <-] & _ & Hle). lia. }
        split; [split; discriminate |].
        split; [intros g [= <-] Hg; congruence |]. reflexivity.
      * apply Z.ltb_ge in Es. split.
        { split; [| reflexivity]. intros _. exists f. auto. }
        split; [split; discriminate |].
        split; [intros g [= <-] Hg; congruence |].
        intros g [= <-] _ Hlt. lia.
    + split.
      { split; [discriminate |]. intros (g & [= <-] & Hg & _). congruence. }
      split; [split; discriminate |].
      split; [reflexivity |]. intros g [= <-] Hg. congruence.
  - split.
    { split; [discriminate |]. intros (g & Hg & _). discriminate Hg. }
    split; [split; reflexivity |].
    split; intros g Hg; discriminate Hg.
Qed.

Lemma X21_upload_validation_witness :
  String.prefix "image/" "image/png" = true
  ∧ MaskSelector.handleFileSelect
      (Some {| MaskSelector.type := "image/png"; MaskSelector.size := 102400 |})
    = MaskSelector.read
  ∧ MaskSelector.handleFileSelect
      (Some {| MaskSelector.type := "image/png"; MaskSelector.size := 102401 |})
    = MaskSelector.rejected "File too large. Please select an image under 100KB.".
Proof.
  split; [reflexivity |]. split.
  - apply (proj1 (X21_upload_validation _)). eexists.
    split; [reflexivity |]. split; [reflexivity | discriminate].
  - destruct (X21_upload_validation
                (Some {| MaskSelector.type := "image/png";
                         MaskSelector.size := 102401 |})) as (_ & _ & _ & H).
    apply (H _ eq_refl); reflexivity.
Defined.

(** X22.  The derived mask URL is [null] exactly in video mode.  In mask
    mode it is the selected mask, or the first preset when no mask or an
    empty one is selected; it is never empty, so [setMaskImage] of the
    renderer never takes it for an absent URL.  The mask store starts with
    a usable URL whatever was saved. *)
Theorem X22_mask_url_follows_mode (mode : S.AvatarMode) (maskImage saved : option string) :
  (S.currentMaskUrlStore mode maskImage = None ↔ S.shouldShowVideoStore mode = true)
  ∧ R.noUrl (S.currentMaskUrlStore mode maskImage) = S.shouldShowVideoStore mode
  ∧ (mode = S.mask → R.noUrl maskImage = false →
     S.currentMaskUrlStore mode maskImage = maskImage)
  ∧ (mode = S.mask → R.noUrl maskImage = true →
     S.currentMaskUrlStore mode maskImage
     = Some "/resources/masks/default-silhouette.svg")
  ∧ R.noUrl (S.initialMaskImage saved) = false
  ∧ (R.noUrl saved = false → S.initialMaskImage saved = saved).
Proof.
  split.
  { destruct mode; cbn; split; intros H; try reflexivity; discriminate H. }
  split.
  { destruct mode; [reflexivity |]. destruct maskImage as [[| c rest] |]; reflexivity. }
  split.
  { intros -> H. destruct maskImage as [[| c rest] |]; try discriminate H.
    reflexivity. }
  split.
  { intros -> H. destruct maskImage as [[| c rest] |]; try discriminate H;
      reflexivity. }
  split.
  { destruct saved as [[| c rest] |]; reflexivity. }
  intros H. destruct saved as [[| c rest] |]; try discriminate H. reflexivity.
Qed.

Lemma X22_mask_url_follows_mode_witness :
  S.mask = S.mask ∧ R.noUrl (Some "") = true
  ∧ S.currentMaskUrlStore S.mask (Some "")
    = Some "/resources/masks/default-silhouette.svg".
Proof.
  split; [reflexivity |]. split; [reflexivity |].
  destruct (X22_mask_url_follows_mode S.mask (Some "") None)
    as (_ & _ & _ & H & _).
  apply H; reflexivity.
Defined.

(** X23.  Both toggles flip the mode and ask for the new mode to be
    saved; toggling twice gives the mode back.  The toggle button also
    asks for the camera, after the mode is saved: on when the new mode is
    video, off when it is mask, so that after a click the camera request
    agrees with [isVideoMode]. *)
Theorem X23_mode_toggles (mode : S.AvatarMode) :
  fst (S.toggleMode mode) ≠ mode
  ∧ fst (S.toggleMode (fst (S.toggleMode mode))) = mode
  ∧ snd (S.toggleMode mode) = [S.setAvatarMode (fst (S.toggleMode mode))]
  ∧ fst (AvatarModeToggle.toggleAvatarMode mode) = fst (S.toggleMode mode)
  ∧ fst (AvatarModeToggle.toggleAvatarMode
           (fst (AvatarModeToggle.toggleAvatarMode mode))) = mode
  ∧ snd (AvatarModeToggle.toggleAvatarMode mode)
    = [ S.setAvatarMode (fst (AvatarModeToggle.toggleAvatarMode mode));
        if AvatarModeToggle.isVideoMode
             (fst (AvatarModeToggle.toggleAvatarMode mode))
        then S.enableWebcam else S.disableWebcam ]
  ∧ S.shouldShowVideoStore (fst (AvatarModeToggle.toggleAvatarMode mode))
    = negb (AvatarModeToggle.isVideoMode mode).
Proof. destruct mode; repeat split; discriminate. Qed.

(** X24.  The custom badge.  [isCustomMask] is false when nothing or an
    empty URL is selected and after [selectMask] of any preset, and true
    after [setCustomMask] of any data URL.  The presets have pairwise
    distinct ids and URLs, so at most one of them shows as selected. *)
Theorem X24_custom_mask_flag (current : option string) :
  MaskSelector.isCustomMask None = false
  ∧ MaskSelector.isCustomMask (Some "") = false
  ∧ (∀ m, In m S.DEFAULT_MASKS →
          MaskSelector.isCustomMask (fst (MaskSelector.selectMask (S.url m) current))
          = false)
  ∧ (∀ dataUrl, String.prefix "data:" dataUrl = true →
                MaskSelector.isCustomMask (fst (S.setCustomMask dataUrl current))
                = true)
  ∧ NoDup (map S.url S.DEFAULT_MASKS)
  ∧ NoDup (map S.id S.DEFAULT_MASKS).
Proof.
  split; [reflexivity |]. split; [reflexivity |]. split.
  { intros m Hm. cbn in Hm.
    repeat (destruct Hm as [<- | Hm]; [vm_compute; reflexivity |]).
    destruct Hm. }
  split.
  { intros [| c rest] H; [discriminate H |].
    cbn [String.prefix] in H.
    destruct (Ascii.ascii_dec _ c) as [<- |]; [| discriminate H].
    reflexivity. }
  split; apply NoDup_ListNoDup; cbn;
    repeat (constructor; [cbn; intros H; repeat (destruct H as [H | H];
                           [discriminate H |]); exact H |]);
    constructor.
Qed.

Lemma X24_custom_mask_flag_witness :
  String.prefix "data:" "data:image/png;base64,AAAA" = true
  ∧ MaskSelector.isCustomMask
      (fst (S.setCustomMask "data:image/png;base64,AAAA" None)) = true.
Proof.
  split; [reflexivity |].
  destruct (X24_custom_mask_flag None) as (_ & _ & _ & H & _).
  apply H. reflexivity.
Defined.

(** * Requesting a mask *)

(** X25.  Asking for a mask changes nothing that is shown.  On a live
    instance [setMaskImage] with a non-empty URL starts the load of that
    URL and sets [maskLoading]; the canvas, the texture, the mode and the
    mask cached so far stay as they are until the image reports.  The
    empty string is treated like [null]: the cache is cleared, no load is
    started and, outside video mode, the placeholder is drawn. *)
Theorem X25_setMaskImage_request (r : R.t) (c : Ascii.ascii) (rest : string)
    (Hlive : R.destroyed r = false) :
  snd (R.setMaskImage (Some (String c rest)) r) = Some (String c rest)
  ∧ R.isMaskLoading (fst (R.setMaskImage (Some (String c rest)) r)) = true
  ∧ R.canvas (fst (R.setMaskImage (Some (String c rest)) r)) = R.canvas r
  ∧ R.canvasTexture (fst (R.setMaskImage (Some (String c rest)) r))
    = R.canvasTexture r
  ∧ R.currentMaskImage (fst (R.setMaskImage (Some (String c rest)) r))
    = R.currentMaskImage r
  ∧ R.isVideoActive (fst (R.setMaskImage (Some (String c rest)) r))
    = R.isVideoActive r
  ∧ R.setMaskImage (Some "") r = R.setMaskImage None r
  ∧ snd (R.setMaskImage None r) = None
  ∧ R.currentMaskImage (fst (R.setMaskImage None r)) = None
  ∧ R.isMaskLoading (fst (R.setMaskImage None r)) = R.isMaskLoading r
  ∧ R.canvas (fst (R.setMaskImage None r))
    = (R.canvas r ++ if R.isActive r then [] else R.placeholderOps)%list.
Proof.
  unfold R.setMaskImage, R.isMaskLoading, R.isVideoActive. rewrite Hlive.
  cbn [R.noUrl fst snd R.set_maskLoading R.set_currentMaskImage R.maskLoading
       R.canvas R.canvasTexture R.currentMaskImage R.isActive].
  repeat (split; [reflexivity |]).
  destruct (R.isActive r); cbn [negb].
  - cbn. rewrite app_nil_r. repeat split.
  - unfold R.drawPlaceholder, R.refreshTexture. cbn. rewrite Hlive. cbn.
    repeat split.
Qed.

Lemma X25_setMaskImage_request_witness :
  R.destroyed masked = false
  ∧ R.currentMaskImage (fst (R.setMaskImage (Some "/resources/masks/avatar-2.svg") masked))
    = Some portrait
  ∧ R.currentMaskImage (fst (R.setMaskImage (Some "") masked)) = None.
Proof.
  split; [reflexivity |].
  destruct (X25_setMaskImage_request masked
              (Ascii.Ascii true true true true false true false false)
              "resources/masks/avatar-2.svg")
    as (_ & _ & _ & _ & Hkept & _ & Hempty & _ & Hcleared & _); [reflexivity |].
  split; [exact Hkept |]. rewrite Hempty. exact Hcleared.
Defined.
